(** * aa-session-batcher: a shallow embedding and its verified properties

    The program drains a queue file of ERC-4337 user operations, groups the
    entries by target, keeps a per-target cap, validates, backfills fees and
    submits one bundle with retries ([src/aa-session-batcher.ts]).

    Modelling choices.
    - JS strings are [string]; addresses and numeric fields are ASCII.
    - A [bigint] is a [Z]; a [number] holding a count is a [Z] as well.
    - An exception is a value of [Exn]; a function that may throw returns
      [Exn + A].
    - Objects created by [JSON.parse] have an identity: [Obj] pairs a value
      with the index at which it was allocated.
    - The file system is one map from path to file content; the relay is an
      oracle giving the HTTP reply of the n-th request of the process.
    - Console output is left out, except that the entries for which the code
      warns "Validation failed" and pushes nothing are recorded. *)

From Stdlib Require Import ZArith List String Ascii Bool Lia Permutation.
Import ListNotations.
Local Open Scope string_scope.
Local Open Scope Z_scope.

(** ** JavaScript primitives *)

Module Js.

(** Exceptions that the program can meet. *)
Inductive Exn : Type :=
| SyntaxError            (* BigInt(string) on a string that is no integer literal *)
| TypeError              (* BigInt(null), BigInt(undefined), property of null *)
| RangeError             (* BigInt(number) on a non-integral number *)
| FetchFailed            (* fetch() or res.json() rejects *)
| RpcFailed (method : string) (status : Z)   (* `RPC ${method} failed: ${res.status}` *)
| RpcError.              (* `RPC error: ...` *)

(** JSON values as far as the program looks at them.  [JNum] is a number with
    an integral value, [JNonInt] any other number, [JObj s] an object or array
    whose conversion to a primitive is the string [s]. *)
Inductive Value : Type :=
| JUndefined
| JNull
| JBool (b : bool)
| JNum (z : Z)
| JNonInt
| JStr (s : string)
| JObj (prim : string).

(** ToBoolean. *)
Definition truthy (v : Value) : bool :=
  match v with
  | JUndefined | JNull => false
  | JBool b => b
  | JNum z => negb (z =? 0)
  | JNonInt => true
  | JStr s => negb (String.eqb s "")
  | JObj _ => true
  end.

Definition isUpper (c : ascii) : bool :=
  ((65 <=? nat_of_ascii c) && (nat_of_ascii c <=? 90))%nat.

Definition lowerChar (c : ascii) : ascii :=
  if isUpper c then ascii_of_nat (nat_of_ascii c + 32) else c.

(** String.prototype.toLowerCase on ASCII text. *)
Fixpoint toLowerCase (s : string) : string :=
  match s with
  | EmptyString => EmptyString
  | String c s' => String (lowerChar c) (toLowerCase s')
  end.

(** StrWhiteSpaceChar, ASCII part: TAB, LF, VT, FF, CR, SP. *)
Definition isWhite (c : ascii) : bool :=
  let n := nat_of_ascii c in
  (((9 <=? n) && (n <=? 13)) || (n =? 32))%nat.

Fixpoint trimStart (s : string) : string :=
  match s with
  | EmptyString => EmptyString
  | String c s' => if isWhite c then trimStart s' else s
  end.

(** Drops trailing white space: a suffix made of white space only becomes
    empty. *)
Fixpoint trimEnd (s : string) : string :=
  match s with
  | EmptyString => EmptyString
  | String c s' =>
      match trimEnd s' with
      | EmptyString => if isWhite c then EmptyString else String c EmptyString
      | t => String c t
      end
  end.

Definition trim (s : string) : string := trimEnd (trimStart s).

(** Value of a digit character in any radix up to 36. *)
Definition digitVal (c : ascii) : option Z :=
  let n := Z.of_nat (nat_of_ascii c) in
  if (48 <=? n) && (n <=? 57) then Some (n - 48)
  else if (97 <=? n) && (n <=? 122) then Some (n - 87)
  else if (65 <=? n) && (n <=? 90) then Some (n - 55)
  else None.

Definition digitChar (d : Z) : ascii :=
  if d <? 10 then ascii_of_nat (Z.to_nat (48 + d))
  else ascii_of_nat (Z.to_nat (87 + d)).

Fixpoint parseDigits (radix acc : Z) (s : string) : option Z :=
  match s with
  | EmptyString => Some acc
  | String c s' =>
      match digitVal c with
      | Some d => if d <? radix then parseDigits radix (acc * radix + d) s' else None
      | None => None
      end
  end.

(** One or more digits of the radix. *)
Definition parseNat (radix : Z) (s : string) : option Z :=
  match s with
  | EmptyString => None
  | _ => parseDigits radix 0 s
  end.

(** StringToBigInt: white space is trimmed; the empty string is 0; a literal
    is 0x, 0o or 0b followed by digits, or decimal digits with an optional
    sign. *)
Definition StringToBigInt (s : string) : option Z :=
  match trim s with
  | EmptyString => Some 0
  | String "0" (String "x" ds) | String "0" (String "X" ds) => parseNat 16 ds
  | String "0" (String "o" ds) | String "0" (String "O" ds) => parseNat 8 ds
  | String "0" (String "b" ds) | String "0" (String "B" ds) => parseNat 2 ds
  | String "+" ds => parseNat 10 ds
  | String "-" ds => option_map Z.opp (parseNat 10 ds)
  | ds => parseNat 10 ds
  end.

(** BigInt(s) for a string [s]. *)
Definition BigIntOfString (s : string) : Exn + Z :=
  match StringToBigInt s with
  | Some z => inr z
  | None => inl SyntaxError
  end.

(** BigInt(v) for a JSON value [v]. *)
Definition BigInt (v : Value) : Exn + Z :=
  match v with
  | JUndefined | JNull => inl TypeError
  | JBool b => inr (if b then 1 else 0)
  | JNum z => inr z
  | JNonInt => inl RangeError
  | JStr s => BigIntOfString s
  | JObj prim => BigIntOfString prim
  end.

(** Digits of a non-negative integer, most significant first; [fuel] bounds
    the number of digits. *)
Fixpoint digitsFuel (radix : Z) (fuel : nat) (n : Z) : string :=
  match fuel with
  | O => EmptyString
  | S fuel' =>
      if n <? radix then String (digitChar n) EmptyString
      else digitsFuel radix fuel' (n / radix) ++ String (digitChar (n mod radix)) EmptyString
  end.

Definition digits (radix n : Z) : string :=
  digitsFuel radix (S (Z.to_nat (Z.log2 n))) n.

(** BigInt.prototype.toString(radix). *)
Definition toStringRadix (radix z : Z) : string :=
  if z <? 0 then String "-" (digits radix (- z)) else digits radix z.

(** [x > s] for a bigint [x] and a string [s]: the string is converted with
    StringToBigInt, and the comparison is false when that fails. *)
Definition bigintGtString (x : Z) (s : string) : bool :=
  match StringToBigInt s with
  | Some y => y <? x
  | None => false
  end.

(** Array.prototype.push, as a value. *)
Definition push {A : Type} (arr : list A) (x : A) : list A := (arr ++ [x])%list.

End Js.

Import Js.

(** ** Data model *)

Record UserOperation : Type := mkOp {
  sender : string;
  nonce : string;
  initCode : string;
  callData : string;
  callGasLimit : string;
  verificationGasLimit : string;
  preVerificationGas : string;
  maxFeePerGas : string;
  maxPriorityFeePerGas : string;
  paymasterAndData : string;
  signature : string
}.

Record QueueEntry : Type := mkEntry {
  op : UserOperation;
  target : string;
  session : string;
  createdAt : Z
}.

(** The parsed command line.  [maxPerTargetPerMin] is a number with an
    integral value. *)
Record Args : Type := mkArgs {
  bundler : string;
  entrypoint : string;
  queue : string;
  maxPerTargetPerMin : Z;
  dryRun : bool
}.

(** The shape of the constant [POLICY]. *)
Record Policy : Type := mkPolicy {
  blockedTargets : list string;
  maxCallGas : Z;
  maxFeeGwei : Z;
  maxPriorityGwei : Z
}.

Definition POLICY : Policy :=
  {| blockedTargets := [];
     maxCallGas := 6000000;
     maxFeeGwei := 200;
     maxPriorityGwei := 20 |}.

(** Set.prototype.has on a set of strings. *)
Definition has (s : list string) (x : string) : bool :=
  existsb (String.eqb x) s.

Definition gweiToWeiHex (g : Z) : string :=
  "0x" ++ toStringRadix 16 (g * 1000000000).

(** ** Policy validation *)

Definition callGasMessage (callGas : Z) : string :=
  "callGasLimit too high: " ++ toStringRadix 10 callGas.

Definition initCodeMessage : string :=
  "initCode present but signature empty (likely invalid)".

(** [validate], reading the policy [P].  The two fee comparisons are
    evaluated and their blocks are empty. *)
Definition validate (P : Policy) (o : UserOperation) : Exn + list string :=
  let errs : list string := [] in
  match BigIntOfString (callGasLimit o) with
  | inl e => inl e
  | inr callGas =>
    let errs := if maxCallGas P <? callGas then push errs (callGasMessage callGas) else errs in
    match BigIntOfString (maxFeePerGas o) with
    | inl e => inl e
    | inr maxFee =>
      match BigIntOfString (maxPriorityFeePerGas o) with
      | inl e => inl e
      | inr maxPrio =>
        let errs := if bigintGtString maxFee (gweiToWeiHex (maxFeeGwei P)) then errs else errs in
        let errs := if bigintGtString maxPrio (gweiToWeiHex (maxPriorityGwei P)) then errs else errs in
        let errs :=
          if (2 <? Z.of_nat (String.length (initCode o))) && String.eqb (signature o) "0x"
          then push errs initCodeMessage else errs in
        inr errs
      end
    end
  end.

(** ** Objects, the queue file and the relay *)

(** A JS object: its identity and its current value. *)
Record Obj (T : Type) : Type := mkObj { oid : nat; val : T }.
Arguments mkObj {T} _ _.
Arguments oid {T} _.
Arguments val {T} _.

(** [JSON.parse] builds fresh objects: the elements of the parsed array are
    numbered in array order. *)
Fixpoint allocFrom {T : Type} (next : nat) (l : list T) : list (Obj T) :=
  match l with
  | [] => []
  | x :: l' => mkObj next x :: allocFrom (S next) l'
  end.

(** The op object of a queue entry; it is identified with its entry. *)
Definition opOf (it : Obj QueueEntry) : Obj UserOperation :=
  mkObj (oid it) (op (val it)).

(** What a path holds: nothing, text that [JSON.parse] rejects, JSON that is
    no array, or the JSON of an array of entries. *)
Inductive FileContent : Type :=
| Absent
| NotJson
| NotArray
| Items (items : list QueueEntry).

Definition Disk : Type := string -> FileContent.

Definition loadQueue (d : Disk) (file : string) : Exn + list (Obj QueueEntry) :=
  match d file with
  | Absent => inr []
  | NotJson => inl SyntaxError
  | NotArray => inr []
  | Items items => inr (allocFrom 0 items)
  end.

Definition writeFile (d : Disk) (file : string) (c : FileContent) : Disk :=
  fun f => if String.eqb f file then c else d f.

(** A [Map] with string keys, in insertion order of its keys. *)
Definition JsMap (V : Type) : Type := list (string * V).

Fixpoint mapGet {V : Type} (m : JsMap V) (key : string) : option V :=
  match m with
  | [] => None
  | (k, v) :: m' => if String.eqb k key then Some v else mapGet m' key
  end.

Fixpoint mapSet {V : Type} (m : JsMap V) (key : string) (v : V) : JsMap V :=
  match m with
  | [] => [(key, v)]
  | (k, v') :: m' => if String.eqb k key then (k, v) :: m' else (k, v') :: mapSet m' key v
  end.

Definition groupByTarget (items : list (Obj QueueEntry)) : JsMap (list (Obj QueueEntry)) :=
  fold_left
    (fun map it =>
       let key := toLowerCase (target (val it)) in
       let arr := match mapGet map key with Some a => a | None => [] end in
       mapSet map key (push arr it))
    items [].

(** Array.prototype.slice(0, n) and slice(n) for an integral [n >= 0]. *)
Definition sliceTo {A : Type} (n : Z) (l : list A) : list A := firstn (Z.to_nat n) l.
Definition sliceFrom {A : Type} (n : Z) (l : list A) : list A := skipn (Z.to_nat n) l.

(** ** Batch selection (the first loop of [main]) *)

(** [toSend] and [keep] are the arrays of [main]; [dropped] lists the entries
    for which [main] warns "Validation failed" and pushes nothing. *)
Record Selection : Type := mkSel {
  toSend : list (Obj UserOperation);
  keep : list (Obj QueueEntry);
  dropped : list (Obj QueueEntry)
}.

Definition emptySelection : Selection := mkSel [] [] [].

(** The loop over [picked]. *)
Fixpoint pickLoop (P : Policy) (tgt : string) (picked : list (Obj QueueEntry))
    (s : Selection) : Exn + Selection :=
  match picked with
  | [] => inr s
  | it :: picked' =>
      if has (blockedTargets P) tgt then
        pickLoop P tgt picked' (mkSel (toSend s) (push (keep s) it) (dropped s))
      else
        match validate P (op (val it)) with
        | inl e => inl e
        | inr errs =>
            if (0 <? Z.of_nat (List.length errs)) then
              pickLoop P tgt picked' (mkSel (toSend s) (keep s) (push (dropped s) it))
            else
              pickLoop P tgt picked' (mkSel (push (toSend s) (opOf it)) (keep s) (dropped s))
        end
  end.

(** The loop over [byTarget.entries()]. *)
Fixpoint groupLoop (P : Policy) (args : Args)
    (groups : JsMap (list (Obj QueueEntry))) (s : Selection) : Exn + Selection :=
  match groups with
  | [] => inr s
  | (tgt, items) :: groups' =>
      let sentRecently := 0 in
      let allowed := Z.max 0 (maxPerTargetPerMin args - sentRecently) in
      let picked := sliceTo allowed items in
      let rest := sliceFrom allowed items in
      match pickLoop P tgt picked s with
      | inl e => inl e
      | inr s' => groupLoop P args groups' (mkSel (toSend s') (keep s' ++ rest)%list (dropped s'))
      end
  end.

Definition selectBatch (P : Policy) (args : Args) (q : list (Obj QueueEntry)) : Exn + Selection :=
  groupLoop P args (groupByTarget q) emptySelection.

(** ** Relay calls *)

Inductive Params : Type :=
| NoParams
| BundleParams (ops : list UserOperation) (entryPoint : string).

(** Observable effects of a run, in order. *)
Inductive Event : Type :=
| Fetch (url method : string) (params : Params)
| Sleep (ms : Z)
| WriteFile (file : string) (items : list QueueEntry).

(** The parsed body [j] of a reply: [null], or anything else, of which the
    program reads [j.error] and [j.result]. *)
Inductive Body : Type :=
| BodyNull
| BodyJson (error result : Value).

(** What [fetch] gives: a rejection, or a response with [res.ok],
    [res.status] and a body ([None] when [res.json()] rejects). *)
Inductive HttpReply : Type :=
| Rejects
| Response (ok : bool) (status : Z) (body : option Body).

Record World : Type := mkWorld {
  disk : Disk;
  calls : nat;
  trace : list Event
}.

Definition emit (e : Event) (w : World) : World :=
  mkWorld (disk w) (calls w) (push (trace w) e).

(** What [rpc] does with the reply to its request. *)
Definition rpcResult (method : string) (r : HttpReply) : Exn + Value :=
  match r with
  | Rejects => inl FetchFailed
  | Response ok status body =>
      if negb ok then inl (RpcFailed method status)
      else match body with
           | None => inl FetchFailed
           | Some BodyNull => inl TypeError
           | Some (BodyJson error result) =>
               if truthy error then inl RpcError else inr result
           end
  end.

Record Fees : Type := mkFees {
  feeMaxFeePerGas : string;
  feeMaxPriorityFeePerGas : string
}.

(** The body of the loop "Set fees for ops if zero", on one op. *)
Definition setFees (fees : Fees) (o : UserOperation) : UserOperation :=
  let o :=
    if String.eqb (maxFeePerGas o) "0x0"
    then mkOp (sender o) (nonce o) (initCode o) (callData o) (callGasLimit o)
              (verificationGasLimit o) (preVerificationGas o)
              (feeMaxFeePerGas fees) (maxPriorityFeePerGas o)
              (paymasterAndData o) (signature o)
    else o in
  if String.eqb (maxPriorityFeePerGas o) "0x0"
  then mkOp (sender o) (nonce o) (initCode o) (callData o) (callGasLimit o)
            (verificationGasLimit o) (preVerificationGas o)
            (maxFeePerGas o) (feeMaxPriorityFeePerGas fees)
            (paymasterAndData o) (signature o)
  else o.

Definition setFeesObj (fees : Fees) (o : Obj UserOperation) : Obj UserOperation :=
  mkObj (oid o) (setFees fees (val o)).

(** Which [return] of [main] a run takes, or the exception it rejects with. *)
Inductive Outcome : Type :=
| QueueEmpty
| NothingSelected
| DryRun (count : Z)
| BundleSent (res : Value)
| RetriesFailed
| Thrown (e : Exn).

Section Run.

(** The reply of the relay to the n-th request of the process. *)
Variable relay : nat -> HttpReply.

Definition rpc (url method : string) (params : Params) (w : World) : (Exn + Value) * World :=
  (rpcResult method (relay (calls w)),
   mkWorld (disk w) (S (calls w)) (push (trace w) (Fetch url method params))).

Definition feesOfBase (base : Z) : Fees :=
  let prio := Z.quot base 10 in
  mkFees ("0x" ++ toStringRadix 16 (base * 2)) ("0x" ++ toStringRadix 16 prio).

Definition estimateFees (url : string) (w : World) : (Exn + Fees) * World :=
  match rpc url "eth_gasPrice" NoParams w with
  | (inl e, w1) => (inl e, w1)
  | (inr v, w1) =>
      match BigInt v with
      | inl e => (inl e, w1)
      | inr base => (inr (feesOfBase base), w1)
      end
  end.

Definition sendBundle (args : Args) (ops : list UserOperation) (w : World) : (Exn + Value) * World :=
  rpc (bundler args) "eth_sendUserOperationBundle" (BundleParams ops (entrypoint args)) w.

Definition saveQueue (file : string) (items : list (Obj QueueEntry)) (w : World) : World :=
  mkWorld (writeFile (disk w) file (Items (map val items))) (calls w)
          (push (trace w) (WriteFile file (map val items))).

Definition sleep (ms : Z) (w : World) : World := emit (Sleep ms) w.

(** The retry loop.  [fuel] bounds the number of iterations; [None] means
    that it ran out. *)
Fixpoint retryLoop (fuel : nat) (args : Args) (qfile : string)
    (toSend : list (Obj UserOperation)) (keep : list (Obj QueueEntry))
    (attempt : Z) (w : World) : option (Outcome * World) :=
  match fuel with
  | O => None
  | S fuel' =>
      if attempt <? 5 then
        match sendBundle args (map val toSend) w with
        | (inr res, w1) => Some (BundleSent res, saveQueue qfile keep w1)
        | (inl e, w1) =>
            let attempt := attempt + 1 in
            let wait := Z.min 60 (2 ^ attempt) in
            retryLoop fuel' args qfile toSend keep attempt (sleep (wait * 1000) w1)
        end
      else Some (RetriesFailed, w)
  end.

(** [main], reading the policy [P] and the arguments [args]. *)
Definition main (P : Policy) (args : Args) (w : World) : option (Outcome * World) :=
  let qfile := queue args in
  match loadQueue (disk w) qfile with
  | inl e => Some (Thrown e, w)
  | inr q =>
      if Z.of_nat (List.length q) =? 0 then Some (QueueEmpty, w)
      else
        match selectBatch P args q with
        | inl e => Some (Thrown e, w)
        | inr sel =>
            if Z.of_nat (List.length (toSend sel)) =? 0 then Some (NothingSelected, w)
            else
              match estimateFees (bundler args) w with
              | (inl e, w1) => Some (Thrown e, w1)
              | (inr fees, w1) =>
                  let toSend' := map (setFeesObj fees) (toSend sel) in
                  if dryRun args then Some (DryRun (Z.of_nat (List.length toSend')), w1)
                  else retryLoop 6 args qfile toSend' (keep sel) 0 w1
              end
        end
  end.

End Run.

(** ** Vocabulary of the statements *)

(** No character of the string is white space. *)
Fixpoint noWhite (s : string) : bool :=
  match s with
  | EmptyString => true
  | String c s' => negb (isWhite c) && noWhite s'
  end.

(** The key under which [groupByTarget] files an entry. *)
Definition keyOf (it : Obj QueueEntry) : string := toLowerCase (target (val it)).

(** One iteration of the loop of [groupByTarget]. *)
Definition groupStep (m : JsMap (list (Obj QueueEntry))) (it : Obj QueueEntry) :=
  mapSet m (keyOf it)
    (push (match mapGet m (keyOf it) with Some a => a | None => [] end) it).

(** The entries of the queue for a key, in queue order. *)
Definition groupOf (q : list (Obj QueueEntry)) (K : string) : list (Obj QueueEntry) :=
  filter (fun it => String.eqb (keyOf it) K) q.

Definition allowedOf (args : Args) : Z := Z.max 0 (maxPerTargetPerMin args).

(** The first [allowed] entries for a key, and the entries after them. *)
Definition candidates (args : Args) (q : list (Obj QueueEntry)) (K : string) :=
  sliceTo (allowedOf args) (groupOf q K).
Definition overflow (args : Args) (q : list (Obj QueueEntry)) (K : string) :=
  sliceFrom (allowedOf args) (groupOf q K).

(** What the loop over [picked] does with a candidate of the group [K]. *)
Inductive Verdict : Type := Send | Keep | Drop.

Definition verdict (P : Policy) (K : string) (it : Obj QueueEntry) : Verdict :=
  if has (blockedTargets P) K then Keep
  else match validate P (op (val it)) with
       | inr [] => Send
       | _ => Drop
       end.

Definition isSend P K it := match verdict P K it with Send => true | _ => false end.
Definition isKeep P K it := match verdict P K it with Keep => true | _ => false end.
Definition isDrop P K it := match verdict P K it with Drop => true | _ => false end.

(** The contribution of one group to the three lists. *)
Definition sendPart (P : Policy) (args : Args) (g : string * list (Obj QueueEntry)) :=
  map opOf (filter (isSend P (fst g)) (sliceTo (allowedOf args) (snd g))).
Definition keepPart (P : Policy) (args : Args) (g : string * list (Obj QueueEntry)) :=
  (filter (isKeep P (fst g)) (sliceTo (allowedOf args) (snd g))
     ++ sliceFrom (allowedOf args) (snd g))%list.
Definition dropPart (P : Policy) (args : Args) (g : string * list (Obj QueueEntry)) :=
  filter (isDrop P (fst g)) (sliceTo (allowedOf args) (snd g)).

(** [o] is the op of an entry of [q] filed under the key [K]. *)
Definition forTarget (q : list (Obj QueueEntry)) (K : string) (o : Obj UserOperation) : bool :=
  existsb (fun it => Nat.eqb (oid it) (oid o) && String.eqb (keyOf it) K) q.

(** The three numeric fields that [validate] reads are integer literals. *)
Definition numericFields (o : UserOperation) : Prop :=
  exists callGas maxFee maxPrio,
    BigIntOfString (callGasLimit o) = inr callGas /\
    BigIntOfString (maxFeePerGas o) = inr maxFee /\
    BigIntOfString (maxPriorityFeePerGas o) = inr maxPrio.

(** A queue file whose ops have numeric fields as the data model says. *)
Definition wellFormed (items : list QueueEntry) : Prop :=
  forall e, In e items -> numericFields (op e).

(** The state in which a process starts on the disk [d]. *)
Definition boot (d : Disk) : World := mkWorld d 0 [].

(** The two requests that the program makes. *)
Definition gasEv (args : Args) : Event :=
  Fetch (bundler args) "eth_gasPrice" NoParams.
Definition sendEv (args : Args) (ops : list UserOperation) : Event :=
  Fetch (bundler args) "eth_sendUserOperationBundle" (BundleParams ops (entrypoint args)).

(** The n-th request, taken as a submission, fails. *)
Definition submissionFails (relay : nat -> HttpReply) (n : nat) : Prop :=
  exists e, rpcResult "eth_sendUserOperationBundle" (relay n) = inl e.

(** A run from the disk [d] selects [sel], reads the base fee [base] from the
    first reply and goes on to submit. *)
Definition reachesSubmission (relay : nat -> HttpReply) (P : Policy) (args : Args)
    (d : Disk) (sel : Selection) (base : Z) : Prop :=
  exists q v,
    loadQueue d (queue args) = inr q /\
    selectBatch P args q = inr sel /\
    toSend sel <> [] /\
    rpcResult "eth_gasPrice" (relay 0%nat) = inr v /\
    BigInt v = inr base /\
    dryRun args = false.

(** The ops that a submission carries after the backfill with [fees]. *)
Definition backfilled (fees : Fees) (sel : Selection) : list UserOperation :=
  map val (map (setFeesObj fees) (toSend sel)).

(** Events of the retry loop. *)
Definition retryEvent (args : Args) (qfile : string) (ops : list UserOperation)
    (saved : list QueueEntry) (ev : Event) : Prop :=
  ev = sendEv args ops \/ (exists ms, ev = Sleep ms) \/ ev = WriteFile qfile saved.

(** Number of fee-price requests in a trace. *)
Fixpoint feeQueries (t : list Event) : nat :=
  match t with
  | [] => O
  | Fetch _ method _ :: t' =>
      if String.eqb method "eth_gasPrice" then S (feeQueries t') else feeQueries t'
  | _ :: t' => feeQueries t'
  end.

(** A run from the disk [d] selects at least one op. *)
Definition selectsSomething (P : Policy) (args : Args) (d : Disk) : bool :=
  match loadQueue d (queue args) with
  | inr q =>
      match selectBatch P args q with
      | inr sel => negb (Z.of_nat (List.length (toSend sel)) =? 0)
      | inl _ => false
      end
  | inl _ => false
  end.

(** ** Concrete operations, queues and relays *)

(** A valid op with both fee fields unset. *)
Definition opPlain : UserOperation :=
  mkOp "0x1111111111111111111111111111111111111111" "0x1" "0x" "0xb61d27f6"
       "0x5208" "0x186a0" "0xc350" "0x0" "0x0" "0x" "0xabcdef".

(** A valid op with both fee fields set to 1 gwei. *)
Definition opPriced : UserOperation :=
  mkOp "0x1111111111111111111111111111111111111111" "0x2" "0x" "0xb61d27f6"
       "0x5208" "0x186a0" "0xc350" "0x3b9aca00" "0x3b9aca00" "0x" "0xabcdef".

(** Max fee of 200 gwei and 1 wei, over the ceiling of 200 gwei. *)
Definition opFeeTooHigh : UserOperation :=
  mkOp "0x1111111111111111111111111111111111111111" "0x3" "0x" "0xb61d27f6"
       "0x5208" "0x186a0" "0xc350" "0x2e90edd001" "0x3b9aca00" "0x" "0xabcdef".

(** Priority fee of 20 gwei and 1 wei, over the ceiling of 20 gwei. *)
Definition opPrioTooHigh : UserOperation :=
  mkOp "0x1111111111111111111111111111111111111111" "0x4" "0x" "0xb61d27f6"
       "0x5208" "0x186a0" "0xc350" "0x3b9aca00" "0x4a817c801" "0x" "0xabcdef".

(** Init code with an empty signature. *)
Definition opUnsigned : UserOperation :=
  mkOp "0x2222222222222222222222222222222222222222" "0x0" "0x5fbfb9cf" "0xb61d27f6"
       "0x5208" "0x186a0" "0xc350" "0x3b9aca00" "0x3b9aca00" "0x" "0x".

(** Max fee written as zero with two digits. *)
Definition opZeroPadded : UserOperation :=
  mkOp "0x1111111111111111111111111111111111111111" "0x5" "0x" "0xb61d27f6"
       "0x5208" "0x186a0" "0xc350" "0x00" "0x0" "0x" "0xabcdef".

Definition targetX : string := "0xAb5801a7D398351b8bE11C439e05C5B3259aeC9B".
Definition targetXlower : string := "0xab5801a7d398351b8be11c439e05c5b3259aec9b".
Definition targetY : string := "0x00000000219ab540356cbb839cbe05303d7705fa".

(** Four entries for X under two spellings and one for Y. *)
Definition queueDemo : list QueueEntry :=
  [ mkEntry opPlain targetX "alice" 1700000000;
    mkEntry opUnsigned targetXlower "bob" 1700000001;
    mkEntry opPriced targetY "carol" 1700000002;
    mkEntry opPriced targetX "dave" 1700000003;
    mkEntry opPlain targetXlower "erin" 1700000004 ].

Definition policyBlockingY : Policy :=
  mkPolicy [targetY] 6000000 200 20.

Definition argsDemo : Args :=
  mkArgs "http://127.0.0.1:3000" "0x0576a174D229E3cFA37253523E645A78A0C91B57"
         "queue.json" 20 false.

Definition argsCap3 : Args :=
  mkArgs "http://127.0.0.1:3000" "0x0576a174D229E3cFA37253523E645A78A0C91B57"
         "queue.json" 3 false.

Definition diskOf (items : list QueueEntry) : Disk :=
  fun f => if String.eqb f "queue.json" then Items items else Absent.

Definition okReply (v : Value) : HttpReply :=
  Response true 200 (Some (BodyJson JUndefined v)).

(** A relay that answers the fee query with [v] and accepts every bundle. *)
Definition relayAccepting (v : Value) (n : nat) : HttpReply :=
  match n with
  | O => okReply v
  | _ => okReply (JStr "0xb1")
  end.

(** A relay that answers the fee query with 100 wei and then fails [k]
    times with status 503 before it accepts. *)
Definition relayFailing (k : nat) (n : nat) : HttpReply :=
  match n with
  | O => okReply (JStr "0x64")
  | _ => if (n <=? k)%nat then Response false 503 None else okReply (JStr "0xb1")
  end.


Definition selPlain : Selection :=
  mkSel [mkObj 0 opPlain] [] [].

Definition selPriced : Selection :=
  mkSel [mkObj 0 opPriced] [] [].

Definition selZeroPadded : Selection :=
  mkSel [mkObj 0 opZeroPadded] [] [].

(** ** The rest of the program *)

(** [hex]: a number or a bigint as hexadecimal text; [JNum] stands for both
    an integral number and a bigint. *)
Definition hex (v : Value) : Exn + string :=
  match BigInt v with
  | inl e => inl e
  | inr z => inr ("0x" ++ toStringRadix 16 z)
  end.

(** The value that [parseArgs] leaves in [maxPerTargetPerMin]: the default
    20, or [Number(v)] for the argument [v] after the flag, which is kept as
    it is ([None] for [undefined]). *)
Inductive MaxArg : Type :=
| MaxDefault
| MaxNumberOf (v : option string).

(** The object [out] of [parseArgs]; a field set from [process.argv[i + 1]]
    is [None] when that is [undefined]. *)
Record RawArgs : Type := mkRaw {
  rawBundler : option string;
  rawEntrypoint : option string;
  rawQueue : option string;
  rawMax : MaxArg;
  rawDryRun : bool
}.

Definition defaultArgs : RawArgs :=
  mkRaw (Some "http://127.0.0.1:3000")
        (Some "0x0576a174D229E3cFA37253523E645A78A0C91B57")
        (Some "queue.json") MaxDefault false.

(** The body of the loop of [parseArgs] for the argument [k] followed by
    [v]. *)
Definition parseStep (k : string) (v : option string) (out : RawArgs) : RawArgs :=
  let out := if String.eqb k "--bundler"
             then mkRaw v (rawEntrypoint out) (rawQueue out) (rawMax out) (rawDryRun out)
             else out in
  let out := if String.eqb k "--entrypoint"
             then mkRaw (rawBundler out) v (rawQueue out) (rawMax out) (rawDryRun out)
             else out in
  let out := if String.eqb k "--queue"
             then mkRaw (rawBundler out) (rawEntrypoint out) v (rawMax out) (rawDryRun out)
             else out in
  let out := if String.eqb k "--max-per-target"
             then mkRaw (rawBundler out) (rawEntrypoint out) (rawQueue out)
                        (MaxNumberOf v) (rawDryRun out)
             else out in
  if String.eqb k "--dry-run"
  then mkRaw (rawBundler out) (rawEntrypoint out) (rawQueue out) (rawMax out) true
  else out.

(** The loop of [parseArgs] over the arguments from index [i] on. *)
Fixpoint parseLoop (rest : list string) (out : RawArgs) : RawArgs :=
  match rest with
  | [] => out
  | k :: rest' => parseLoop rest' (parseStep k (hd_error rest') out)
  end.

(** [parseArgs] on [process.argv]. *)
Definition parseArgs (argv : list string) : RawArgs :=
  parseLoop (skipn 2 argv) defaultArgs.

(** ** More vocabulary *)

(** The flags that [parseArgs] knows. *)
Definition isFlag (k : string) : bool :=
  has ["--bundler"; "--entrypoint"; "--queue"; "--max-per-target"; "--dry-run"] k.

(** The keys of a list in the order in which they are first seen. *)
Definition firstSeen (keys : list string) : list string :=
  fold_left (fun seen k => if has seen k then seen else push seen k) keys [].

(** The events of [k] failed submissions in a row, the first of them made
    with the counter at [attempt]. *)
Fixpoint failedAttempts (send : Event) (attempt : Z) (k : nat) : list Event :=
  match k with
  | O => []
  | S k' =>
      send :: Sleep (Z.min 60 (2 ^ (attempt + 1)) * 1000)
           :: failedAttempts send (attempt + 1) k'
  end.

(** Number of bundle submissions in a trace. *)
Fixpoint submissionCount (t : list Event) : nat :=
  match t with
  | [] => O
  | Fetch _ method _ :: t' =>
      if String.eqb method "eth_sendUserOperationBundle"
      then S (submissionCount t') else submissionCount t'
  | _ :: t' => submissionCount t'
  end.

(** The sleeps of a trace, in milliseconds. *)
Fixpoint sleepsOf (t : list Event) : list Z :=
  match t with
  | [] => []
  | Sleep ms :: t' => ms :: sleepsOf t'
  | _ :: t' => sleepsOf t'
  end.

(** The file writes of a trace. *)
Fixpoint writesOf (t : list Event) : list (string * list QueueEntry) :=
  match t with
  | [] => []
  | WriteFile f items :: t' => (f, items) :: writesOf t'
  | _ :: t' => writesOf t'
  end.

(** The ways in which a run from the disk [d] ends: before any request;
    after the fee-price request alone; after five failed submissions; after
    [k] failed submissions and one that the relay accepts. *)
Inductive Ends (args : Args) (d : Disk) : Outcome -> World -> Prop :=
| EndsQuiet (out : Outcome) :
    (forall res, out <> BundleSent res) -> out <> RetriesFailed ->
    Ends args d out (boot d)
| EndsAfterFees (out : Outcome) :
    (forall res, out <> BundleSent res) -> out <> RetriesFailed ->
    Ends args d out (mkWorld d 1 [gasEv args])
| EndsExhausted (ops : list UserOperation) :
    Ends args d RetriesFailed
      (mkWorld d 6 (gasEv args :: failedAttempts (sendEv args ops) 0 5))
| EndsSent (ops : list UserOperation) (saved : list QueueEntry) (res : Value) (k : nat) :
    (k < 5)%nat ->
    Ends args d (BundleSent res)
      (mkWorld (writeFile d (queue args) (Items saved)) (k + 2)
         (gasEv args :: failedAttempts (sendEv args ops) 0 k
            ++ [sendEv args ops; WriteFile (queue args) saved])%list).

Example gweiToWeiHex_200 : gweiToWeiHex 200 = "0x2e90edd000".
Proof. reflexivity. Qed.

Example BigInt_examples :
  BigIntOfString "0xa" = inr 10 /\ BigIntOfString "0x10" = inr 16 /\
  BigIntOfString "0x" = inl SyntaxError /\ BigIntOfString "" = inr 0 /\
  BigIntOfString " 0X1F " = inr 31 /\ BigIntOfString "-12" = inr (-12) /\
  BigIntOfString "0x00" = inr 0 /\ BigIntOfString "1e3" = inl SyntaxError.
Proof. repeat split. Qed.

(** Three entries for X under a cap of 20, one of them with init code and no
    signature: that one is dropped, the two others are sent, and after the
    relay accepts the bundle the queue file holds no entry. *)
Example three_entries_one_unsigned :
  let items := [ mkEntry opPlain targetX "alice" 1700000000;
                 mkEntry opUnsigned targetX "bob" 1700000001;
                 mkEntry opPriced targetX "carol" 1700000002 ] in
  option_map (fun r => map oid (dropped r))
    (match selectBatch POLICY argsDemo (allocFrom 0 items) with
     | inr sel => Some sel
     | inl _ => None
     end) = Some [1%nat] /\
  exists w',
    main (relayAccepting (JStr "0x64")) POLICY argsDemo (boot (diskOf items))
      = Some (BundleSent (JStr "0xb1"), w') /\
    disk w' "queue.json" = Items [] /\
    trace w' = [ gasEv argsDemo;
                 sendEv argsDemo [setFees (feesOfBase 100) opPlain; opPriced];
                 WriteFile "queue.json" [] ].
Proof. split; [reflexivity|]. eexists. repeat split. Qed.

(** ** Printing and parsing integers *)

Section Numbers.

Lemma parseDigits_app (r : Z) (s1 s2 : string) : forall acc,
  parseDigits r acc (s1 ++ s2) =
  match parseDigits r acc s1 with
  | Some a => parseDigits r a s2
  | None => None
  end.
Proof.
  induction s1 as [|c s1 IH]; intros acc; simpl.
  - reflexivity.
  - destruct (digitVal c) as [d|]; [|reflexivity].
    destruct (d <? r); [apply IH | reflexivity].
Qed.

Lemma small_cases (d : Z) : 0 <= d < 16 ->
  d = 0 \/ d = 1 \/ d = 2 \/ d = 3 \/ d = 4 \/ d = 5 \/ d = 6 \/ d = 7 \/
  d = 8 \/ d = 9 \/ d = 10 \/ d = 11 \/ d = 12 \/ d = 13 \/ d = 14 \/ d = 15.
Proof. lia. Qed.

Ltac each_digit H :=
  apply small_cases in H;
  repeat (destruct H as [H|H]; [subst; reflexivity|]); subst; reflexivity.

Lemma digitVal_digitChar (d : Z) : 0 <= d < 16 -> digitVal (digitChar d) = Some d.
Proof. intros H. each_digit H. Qed.

Lemma isWhite_digitChar (d : Z) : 0 <= d < 16 -> isWhite (digitChar d) = false.
Proof. intros H. each_digit H. Qed.

Lemma digitsFuel_parse (r : Z) : 2 <= r <= 16 -> forall fuel n,
  0 <= n < 2 ^ Z.of_nat fuel -> parseDigits r 0 (digitsFuel r fuel n) = Some n.
Proof.
  intros Hr. induction fuel as [|fuel IH]; intros n Hn.
  - simpl in *. f_equal. lia.
  - simpl. destruct (Z.ltb_spec n r) as [Hlt|Hge].
    + simpl. rewrite digitVal_digitChar by lia.
      destruct (Z.ltb_spec n r); [reflexivity | lia].
    + rewrite parseDigits_app, IH.
      * simpl. assert (Hm : 0 <= n mod r < r) by (apply Z.mod_pos_bound; lia).
        rewrite digitVal_digitChar by lia.
        destruct (Z.ltb_spec (n mod r) r); [|lia].
        f_equal. rewrite (Z.div_mod n r) at 3 by lia. ring.
      * split; [apply Z.div_pos; lia|].
        apply Z.div_lt_upper_bound; [lia|].
        rewrite Nat2Z.inj_succ, Z.pow_succ_r in Hn by lia. nia.
Qed.

Lemma log2_fuel (n : Z) : 0 <= n -> n < 2 ^ Z.of_nat (S (Z.to_nat (Z.log2 n))).
Proof.
  intros Hn. rewrite Nat2Z.inj_succ, Z2Nat.id by apply Z.log2_nonneg.
  destruct (Z.eq_dec n 0) as [->|Hz]; [reflexivity|].
  apply Z.log2_spec. lia.
Qed.

Lemma digits_parse (r n : Z) : 2 <= r <= 16 -> 0 <= n ->
  parseDigits r 0 (digits r n) = Some n.
Proof.
  intros Hr Hn. apply digitsFuel_parse; [exact Hr|].
  split; [exact Hn | apply log2_fuel; exact Hn].
Qed.

Lemma noWhite_app (s1 s2 : string) :
  noWhite (s1 ++ s2) = noWhite s1 && noWhite s2.
Proof.
  induction s1 as [|c s1 IH]; simpl; [reflexivity|].
  rewrite IH. apply andb_assoc.
Qed.

Lemma trimEnd_noWhite (s : string) : noWhite s = true -> trimEnd s = s.
Proof.
  induction s as [|c s IH]; simpl; [reflexivity|].
  intros H. apply andb_true_iff in H. destruct H as [Hc Hs].
  rewrite (IH Hs). destruct s; [|reflexivity].
  apply negb_true_iff in Hc. rewrite Hc. reflexivity.
Qed.

Lemma digitsFuel_noWhite (r : Z) : 2 <= r <= 16 -> forall fuel n,
  0 <= n -> noWhite (digitsFuel r fuel n) = true.
Proof.
  intros Hr. induction fuel as [|fuel IH]; intros n Hn; simpl; [reflexivity|].
  destruct (Z.ltb_spec n r).
  - simpl. rewrite isWhite_digitChar by lia. reflexivity.
  - rewrite noWhite_app, IH by (apply Z.div_pos; lia). simpl.
    rewrite isWhite_digitChar; [reflexivity|].
    pose proof (Z.mod_pos_bound n r). lia.
Qed.

Lemma digitsFuel_nonempty (r : Z) (fuel : nat) (n : Z) :
  digitsFuel r (S fuel) n <> EmptyString.
Proof.
  simpl. destruct (n <? r); [discriminate|].
  destruct (digitsFuel r fuel (n / r)); discriminate.
Qed.

(** Reading back the hexadecimal text that the program writes. *)
Lemma StringToBigInt_hex (n : Z) : 0 <= n ->
  StringToBigInt ("0x" ++ toStringRadix 16 n) = Some n.
Proof.
  intros Hn. unfold StringToBigInt, trim, toStringRadix.
  destruct (Z.ltb_spec n 0); [lia|].
  change ("0x" ++ digits 16 n) with (String "0" (String "x" (digits 16 n))).
  replace (trimStart (String "0" (String "x" (digits 16 n))))
    with (String "0" (String "x" (digits 16 n))) by reflexivity.
  rewrite trimEnd_noWhite.
  - unfold parseNat. pose proof (digitsFuel_nonempty 16 (Z.to_nat (Z.log2 n)) n) as Hne.
    fold (digits 16 n) in Hne.
    destruct (digits 16 n) eqn:E; [congruence|].
    rewrite <- E. apply digits_parse; lia.
  - simpl. apply digitsFuel_noWhite; lia.
Qed.

Lemma BigIntOfString_hex (n : Z) : 0 <= n ->
  BigIntOfString ("0x" ++ toStringRadix 16 n) = inr n.
Proof. intros Hn. unfold BigIntOfString. rewrite StringToBigInt_hex by exact Hn. reflexivity. Qed.

(** The comparison with the ceiling that [validate] evaluates is numeric. *)
Lemma bigintGtString_gwei (x g : Z) : 0 <= g ->
  bigintGtString x (gweiToWeiHex g) = (g * 1000000000 <? x).
Proof.
  intros Hg. unfold bigintGtString, gweiToWeiHex.
  rewrite StringToBigInt_hex by lia. reflexivity.
Qed.

End Numbers.

(** ** The map built by [groupByTarget] *)

Section Grouping.

Lemma groupByTarget_snoc q x :
  groupByTarget (q ++ [x]) = groupStep (groupByTarget q) x.
Proof. unfold groupByTarget. rewrite fold_left_app. reflexivity. Qed.

Lemma mapGet_mapSet {V : Type} (m : JsMap V) k v k' :
  mapGet (mapSet m k v) k' = if String.eqb k k' then Some v else mapGet m k'.
Proof.
  induction m as [|[k0 v0] m IH]; simpl.
  - reflexivity.
  - destruct (String.eqb_spec k0 k) as [->|Hne]; simpl.
    + destruct (String.eqb k k'); reflexivity.
    + rewrite IH. destruct (String.eqb_spec k0 k') as [->|Hne'].
      * destruct (String.eqb_spec k k'); [congruence | reflexivity].
      * reflexivity.
Qed.

Lemma mapSet_keys {V : Type} (m : JsMap V) k v k' :
  In k' (map fst (mapSet m k v)) <-> In k' (map fst m) \/ k' = k.
Proof.
  induction m as [|[k0 v0] m IH]; simpl.
  - intuition congruence.
  - destruct (String.eqb_spec k0 k) as [->|Hne]; simpl.
    + intuition congruence.
    + rewrite IH. tauto.
Qed.

Lemma mapSet_NoDup {V : Type} (m : JsMap V) k v :
  NoDup (map fst m) -> NoDup (map fst (mapSet m k v)).
Proof.
  induction m as [|[k0 v0] m IH]; simpl; intros H.
  - constructor; [intros [] | constructor].
  - inversion H as [|? ? Hnin Hnd]; subst.
    destruct (String.eqb_spec k0 k) as [->|Hne]; simpl.
    + constructor; assumption.
    + constructor; [|apply IH; assumption].
      rewrite mapSet_keys. intros [Hin|Heq]; [contradiction | congruence].
Qed.

Lemma mapGet_In {V : Type} (m : JsMap V) k v :
  mapGet m k = Some v -> In (k, v) m.
Proof.
  induction m as [|[k0 v0] m IH]; simpl; [discriminate|].
  destruct (String.eqb_spec k0 k) as [->|Hne]; intros H.
  - left. congruence.
  - right. apply IH, H.
Qed.

Lemma In_mapGet {V : Type} (m : JsMap V) k v :
  NoDup (map fst m) -> In (k, v) m -> mapGet m k = Some v.
Proof.
  induction m as [|[k0 v0] m IH]; simpl; intros Hnd Hin; [contradiction|].
  inversion Hnd as [|? ? Hnin Hnd']; subst.
  destruct Hin as [Heq|Hin].
  - inversion Heq; subst. rewrite String.eqb_refl. reflexivity.
  - destruct (String.eqb_spec k0 k) as [->|Hne]; [|apply IH; assumption].
    exfalso. apply Hnin. change k with (fst (k, v)). apply in_map, Hin.
Qed.

Lemma groupOf_snoc q x K :
  groupOf (q ++ [x]) K =
  (groupOf q K ++ (if String.eqb (keyOf x) K then [x] else []))%list.
Proof. unfold groupOf. rewrite filter_app. reflexivity. Qed.

(** The array filed under a key is the queue filtered by that key. *)
Lemma mapGet_groupByTarget q K :
  mapGet (groupByTarget q) K =
  match groupOf q K with [] => None | g => Some g end.
Proof.
  induction q as [|x q IH] using rev_ind.
  - reflexivity.
  - rewrite groupByTarget_snoc, groupOf_snoc. unfold groupStep.
    rewrite mapGet_mapSet.
    destruct (String.eqb_spec (keyOf x) K) as [->|Hne].
    + rewrite IH. unfold push.
      destruct (groupOf q _); reflexivity.
    + rewrite IH, app_nil_r. reflexivity.
Qed.

Lemma groupByTarget_NoDup q : NoDup (map fst (groupByTarget q)).
Proof.
  induction q as [|x q IH] using rev_ind.
  - constructor.
  - rewrite groupByTarget_snoc. apply mapSet_NoDup, IH.
Qed.

Lemma groupByTarget_In q K items :
  In (K, items) (groupByTarget q) -> items = groupOf q K.
Proof.
  intros Hin. apply In_mapGet in Hin; [|apply groupByTarget_NoDup].
  rewrite mapGet_groupByTarget in Hin.
  destruct (groupOf q K); congruence.
Qed.

Lemma groupOf_In q K it : In it (groupOf q K) <-> In it q /\ keyOf it = K.
Proof. unfold groupOf. rewrite filter_In, String.eqb_eq. reflexivity. Qed.

Lemma groupByTarget_has q it :
  In it q -> In (keyOf it, groupOf q (keyOf it)) (groupByTarget q).
Proof.
  intros Hin. apply mapGet_In. rewrite mapGet_groupByTarget.
  assert (H : In it (groupOf q (keyOf it))) by (apply groupOf_In; auto).
  destruct (groupOf q (keyOf it)); [contradiction | reflexivity].
Qed.

Lemma mapSet_push_Permutation (m : JsMap (list (Obj QueueEntry))) k x :
  Permutation
    (flat_map snd (mapSet m k (push (match mapGet m k with Some a => a | None => [] end) x)))
    (x :: flat_map snd m).
Proof.
  induction m as [|[k0 v0] m IH]; simpl.
  - reflexivity.
  - destruct (String.eqb k0 k); simpl.
    + unfold push. rewrite <- app_assoc. simpl.
      symmetry. apply Permutation_middle.
    + rewrite IH. symmetry. apply Permutation_middle.
Qed.

(** The groups hold the entries of the queue, each once. *)
Lemma groupByTarget_Permutation q :
  Permutation (flat_map snd (groupByTarget q)) q.
Proof.
  induction q as [|x q IH] using rev_ind.
  - reflexivity.
  - rewrite groupByTarget_snoc. unfold groupStep.
    rewrite mapSet_push_Permutation, IH.
    apply Permutation_cons_append.
Qed.

End Grouping.

(** ** The selection loops *)

(** [validate] returns on an op with numeric fields. *)
Lemma validate_total (P : Policy) (o : UserOperation) :
  numericFields o -> exists errs, validate P o = inr errs.
Proof.
  intros (g & f & p & Hg & Hf & Hp). unfold validate.
  rewrite Hg, Hf, Hp. eexists. reflexivity.
Qed.

Section Selecting.

Variable P : Policy.
Variable args : Args.

Lemma verdict_cases K it :
  (isSend P K it = true /\ isKeep P K it = false /\ isDrop P K it = false) \/
  (isSend P K it = false /\ isKeep P K it = true /\ isDrop P K it = false) \/
  (isSend P K it = false /\ isKeep P K it = false /\ isDrop P K it = true).
Proof. unfold isSend, isKeep, isDrop. destruct (verdict P K it); auto. Qed.

(** The loop over [picked] appends to each list the candidates with the
    matching verdict, in order. *)
Lemma pickLoop_spec K picked : forall s,
  (forall it, In it picked -> exists errs, validate P (op (val it)) = inr errs) ->
  pickLoop P K picked s =
  inr (mkSel (toSend s ++ map opOf (filter (isSend P K) picked))
             (keep s ++ filter (isKeep P K) picked)
             (dropped s ++ filter (isDrop P K) picked))%list.
Proof.
  induction picked as [|it picked IH]; intros s Hv; simpl.
  - rewrite !app_nil_r. destruct s; reflexivity.
  - destruct (Hv it (or_introl eq_refl)) as [errs Herrs].
    assert (Hv' : forall it', In it' picked ->
              exists errs', validate P (op (val it')) = inr errs')
      by (intros; apply Hv; right; assumption).
    unfold isSend, isKeep, isDrop, verdict. rewrite Herrs.
    destruct (has (blockedTargets P) K) eqn:Hb.
    + rewrite IH by exact Hv'. unfold isSend, isKeep, isDrop, verdict.
      rewrite Hb. simpl. unfold push. rewrite <- app_assoc. reflexivity.
    + destruct errs as [|m errs]; simpl; rewrite IH by exact Hv';
        unfold isSend, isKeep, isDrop, verdict; rewrite Hb; simpl; unfold push;
        rewrite <- app_assoc; reflexivity.
Qed.

Lemma In_sliceTo {A : Type} (n : Z) (l : list A) x : In x (sliceTo n l) -> In x l.
Proof.
  intros H. rewrite <- (firstn_skipn (Z.to_nat n) l).
  apply in_or_app. left. exact H.
Qed.

Lemma In_sliceFrom {A : Type} (n : Z) (l : list A) x : In x (sliceFrom n l) -> In x l.
Proof.
  intros H. rewrite <- (firstn_skipn (Z.to_nat n) l).
  apply in_or_app. right. exact H.
Qed.

Lemma allowed_eq : Z.max 0 (maxPerTargetPerMin args - 0) = allowedOf args.
Proof. unfold allowedOf. rewrite Z.sub_0_r. reflexivity. Qed.

Lemma groupLoop_spec groups : forall s,
  (forall K items it, In (K, items) groups -> In it items ->
     exists errs, validate P (op (val it)) = inr errs) ->
  groupLoop P args groups s =
  inr (mkSel (toSend s ++ flat_map (sendPart P args) groups)
             (keep s ++ flat_map (keepPart P args) groups)
             (dropped s ++ flat_map (dropPart P args) groups))%list.
Proof.
  induction groups as [|[K items] groups IH]; intros s Hv; simpl.
  - rewrite !app_nil_r. destruct s; reflexivity.
  - rewrite allowed_eq, pickLoop_spec.
    + rewrite IH by (intros K' items' it Hin; apply (Hv K' items' it); right; exact Hin).
      simpl. unfold sendPart, keepPart, dropPart. simpl.
      rewrite <- !app_assoc. reflexivity.
    + intros it Hin. apply (Hv K items it); [left; reflexivity|].
      eapply In_sliceTo. exact Hin.
Qed.

Lemma In_allocFrom {T : Type} (l : list T) : forall n (x : Obj T),
  In x (allocFrom n l) -> In (val x) l.
Proof.
  induction l as [|y l IH]; intros n x; simpl; [tauto|].
  intros [<-|Hin]; [left; reflexivity | right; eapply IH; exact Hin].
Qed.

Lemma oid_allocFrom {T : Type} (l : list T) : forall n,
  map oid (allocFrom n l) = seq n (List.length l).
Proof.
  induction l as [|y l IH]; intros n; simpl; [reflexivity|].
  rewrite IH. reflexivity.
Qed.

(** The result of the selection, group by group. *)
Lemma selectBatch_spec q :
  (forall it, In it q -> exists errs, validate P (op (val it)) = inr errs) ->
  selectBatch P args q =
  inr (mkSel (flat_map (sendPart P args) (groupByTarget q))
             (flat_map (keepPart P args) (groupByTarget q))
             (flat_map (dropPart P args) (groupByTarget q))).
Proof.
  intros Hv. unfold selectBatch. rewrite groupLoop_spec; [reflexivity|].
  intros K items it Hin Hit. apply Hv.
  apply groupByTarget_In in Hin. subst items.
  apply groupOf_In in Hit. tauto.
Qed.

Lemma map_oid_opOf l : map oid (map opOf l) = map oid l.
Proof. rewrite map_map. reflexivity. Qed.

Lemma three_way_Permutation {A : Type} (f g h : A -> bool) (l : list A) :
  (forall x, (f x = true /\ g x = false /\ h x = false) \/
             (f x = false /\ g x = true /\ h x = false) \/
             (f x = false /\ g x = false /\ h x = true)) ->
  Permutation (filter f l ++ filter g l ++ filter h l) l.
Proof.
  intros Hx. induction l as [|x l IH]; simpl; [reflexivity|].
  destruct (Hx x) as [(-> & -> & ->)|[(-> & -> & ->)|(-> & -> & ->)]]; simpl.
  - constructor. exact IH.
  - rewrite <- Permutation_middle. constructor. exact IH.
  - rewrite app_assoc, <- Permutation_middle, <- app_assoc. constructor. exact IH.
Qed.

(** One group is split between the three lists. *)
Lemma parts_Permutation g :
  Permutation (map oid (sendPart P args g) ++ map oid (keepPart P args g)
                 ++ map oid (dropPart P args g))
              (map oid (snd g)).
Proof.
  unfold sendPart, keepPart, dropPart. rewrite map_oid_opOf, <- !map_app.
  apply Permutation_map.
  set (a := allowedOf args). set (picked := sliceTo a (snd g)).
  set (rest := sliceFrom a (snd g)).
  assert (Hsplit : snd g = (picked ++ rest)%list)
    by (symmetry; apply firstn_skipn).
  rewrite Hsplit at 1.
  transitivity ((filter (isSend P (fst g)) picked ++ filter (isKeep P (fst g)) picked
                   ++ filter (isDrop P (fst g)) picked) ++ rest)%list.
  - rewrite <- !app_assoc. do 2 apply Permutation_app_head.
    apply Permutation_app_comm.
  - apply Permutation_app_tail, three_way_Permutation, verdict_cases.
Qed.

Lemma flat_parts_Permutation groups :
  Permutation (map oid (flat_map (sendPart P args) groups)
                 ++ map oid (flat_map (keepPart P args) groups)
                 ++ map oid (flat_map (dropPart P args) groups))
              (map oid (flat_map snd groups)).
Proof.
  induction groups as [|g groups IH]; simpl; [reflexivity|].
  rewrite !map_app, <- (parts_Permutation g), <- IH.
  set (s1 := map oid (sendPart P args g)).
  set (k1 := map oid (keepPart P args g)).
  set (d1 := map oid (dropPart P args g)).
  set (s2 := map oid (flat_map (sendPart P args) groups)).
  set (k2 := map oid (flat_map (keepPart P args) groups)).
  set (d2 := map oid (flat_map (dropPart P args) groups)).
  rewrite <- !app_assoc. apply Permutation_app_head.
  rewrite (Permutation_app_swap_app s2 k1), (Permutation_app_swap_app k2 d1).
  apply Permutation_app_head.
  rewrite !app_assoc. do 2 apply Permutation_app_tail.
  apply Permutation_app_comm.
Qed.

(** The three lists hold the entries of the queue, each once. *)
Lemma selection_Permutation q :
  Permutation (map oid (flat_map (sendPart P args) (groupByTarget q))
                 ++ map oid (flat_map (keepPart P args) (groupByTarget q))
                 ++ map oid (flat_map (dropPart P args) (groupByTarget q)))
              (map oid q).
Proof.
  rewrite flat_parts_Permutation. apply Permutation_map, groupByTarget_Permutation.
Qed.

Lemma NoDup_app_disjoint {A : Type} (l1 l2 : list A) x :
  NoDup (l1 ++ l2) -> In x l1 -> ~ In x l2.
Proof.
  induction l1 as [|y l1 IH]; simpl; intros Hnd Hin; [contradiction|].
  inversion Hnd as [|? ? Hnin Hnd']; subst.
  destruct Hin as [->|Hin]; [|apply IH; assumption].
  intros Hx. apply Hnin, in_or_app. right. exact Hx.
Qed.

Lemma NoDup_oid_inj {T : Type} (q : list (Obj T)) (a b : Obj T) :
  NoDup (map oid q) -> In a q -> In b q -> oid a = oid b -> a = b.
Proof.
  induction q as [|x q IH]; simpl; intros Hnd Ha Hb Heq; [contradiction|].
  inversion Hnd as [|? ? Hnin Hnd']; subst.
  destruct Ha as [->|Ha], Hb as [->|Hb].
  - reflexivity.
  - exfalso. apply Hnin. rewrite Heq. apply in_map, Hb.
  - exfalso. apply Hnin. rewrite <- Heq. apply in_map, Ha.
  - apply IH; assumption.
Qed.

Lemma filter_all {A : Type} (f : A -> bool) (l : list A) :
  (forall x, In x l -> f x = true) -> filter f l = l.
Proof.
  induction l as [|x l IH]; simpl; intros H; [reflexivity|].
  rewrite (H x (or_introl eq_refl)), IH by (intros; apply H; right; assumption).
  reflexivity.
Qed.

Lemma filter_none {A : Type} (f : A -> bool) (l : list A) :
  (forall x, In x l -> f x = false) -> filter f l = [].
Proof.
  induction l as [|x l IH]; simpl; intros H; [reflexivity|].
  rewrite (H x (or_introl eq_refl)). apply IH. intros; apply H; right; assumption.
Qed.

Lemma mapGet_None {V : Type} (m : JsMap V) k :
  ~ In k (map fst m) -> mapGet m k = None.
Proof.
  induction m as [|[k0 v0] m IH]; simpl; intros H; [reflexivity|].
  destruct (String.eqb_spec k0 k) as [->|Hne]; [tauto|].
  apply IH. tauto.
Qed.

(** Whether an op of [toSend] belongs to the key [K] is decided by the group
    it came from. *)
Lemma forTarget_opOf q K it :
  NoDup (map oid q) -> In it q ->
  forTarget q K (opOf it) = String.eqb (keyOf it) K.
Proof.
  intros Hnd Hin. unfold forTarget.
  destruct (String.eqb_spec (keyOf it) K) as [HK|HK].
  - apply existsb_exists. exists it. split; [exact Hin|].
    simpl. rewrite Nat.eqb_refl. apply String.eqb_eq in HK. rewrite HK. reflexivity.
  - apply not_true_is_false. intros Hex. apply existsb_exists in Hex.
    destruct Hex as (it2 & Hin2 & Hc). apply andb_true_iff in Hc.
    destruct Hc as [Hid Hk]. apply Nat.eqb_eq in Hid. apply String.eqb_eq in Hk.
    simpl in Hid. apply (NoDup_oid_inj q it2 it Hnd Hin2 Hin) in Hid.
    subst it2. contradiction.
Qed.

Lemma filter_forTarget_sendPart q K K' :
  NoDup (map oid q) ->
  filter (forTarget q K) (sendPart P args (K', groupOf q K')) =
  if String.eqb K' K then sendPart P args (K', groupOf q K') else [].
Proof.
  intros Hnd.
  assert (Hkey : forall o, In o (sendPart P args (K', groupOf q K')) ->
                   forTarget q K o = String.eqb K' K).
  { intros o Ho. unfold sendPart in Ho. apply in_map_iff in Ho.
    destruct Ho as (it & <- & Hit). apply filter_In in Hit.
    destruct Hit as [Hit _]. apply In_sliceTo in Hit. apply groupOf_In in Hit.
    destruct Hit as [Hq <-]. apply forTarget_opOf; assumption. }
  destruct (String.eqb K' K) eqn:E.
  - apply filter_all, Hkey.
  - apply filter_none, Hkey.
Qed.

Lemma filter_forTarget_groups q K (G : JsMap (list (Obj QueueEntry))) :
  NoDup (map oid q) -> NoDup (map fst G) ->
  (forall K' g, In (K', g) G -> g = groupOf q K') ->
  filter (forTarget q K) (flat_map (sendPart P args) G) =
  match mapGet G K with
  | Some g => sendPart P args (K, g)
  | None => []
  end.
Proof.
  intros Hq. induction G as [|[k0 g0] G IH]; simpl; intros Hnd HG; [reflexivity|].
  inversion Hnd as [|? ? Hnin Hnd']; subst.
  rewrite filter_app, IH by (auto; intros; apply HG; right; assumption).
  rewrite (HG k0 g0 (or_introl eq_refl)), filter_forTarget_sendPart by exact Hq.
  destruct (String.eqb_spec k0 K) as [->|Hne].
  - rewrite (mapGet_None G K Hnin), app_nil_r. reflexivity.
  - reflexivity.
Qed.

(** The ops sent for a key are the admitted ones among its first [allowed]
    entries, in queue order. *)
Lemma toSend_for_key q K :
  NoDup (map oid q) ->
  filter (forTarget q K) (flat_map (sendPart P args) (groupByTarget q)) =
  map opOf (filter (isSend P K) (candidates args q K)).
Proof.
  intros Hq. rewrite (filter_forTarget_groups q K (groupByTarget q) Hq).
  - rewrite mapGet_groupByTarget. unfold candidates.
    destruct (groupOf q K) eqn:E; [|reflexivity].
    unfold sliceTo. rewrite firstn_nil. reflexivity.
  - apply groupByTarget_NoDup.
  - intros K' g. apply groupByTarget_In.
Qed.

Lemma candidates_length q K :
  Z.of_nat (List.length (map opOf (filter (isSend P K) (candidates args q K))))
  <= allowedOf args.
Proof.
  rewrite length_map. unfold candidates, sliceTo.
  pose proof (filter_length_le (isSend P K) (firstn (Z.to_nat (allowedOf args)) (groupOf q K))).
  pose proof (firstn_le_length (Z.to_nat (allowedOf args)) (groupOf q K)).
  assert (0 <= allowedOf args) by (unfold allowedOf; lia).
  pose proof (length_firstn (Z.to_nat (allowedOf args)) (groupOf q K)). lia.
Qed.

End Selecting.

(** ** Runs *)

Section Running.

Variable relay : nat -> HttpReply.
Variable P : Policy.
Variable args : Args.

Lemma selectBatch_nil : selectBatch P args [] = inr emptySelection.
Proof. reflexivity. Qed.

Lemma nonempty_length {A : Type} (l : list A) :
  l <> [] -> (Z.of_nat (List.length l) =? 0) = false.
Proof. destruct l; [congruence | reflexivity]. Qed.

(** The state after the fee-price request of a fresh process. *)
Lemma estimateFees_boot d :
  estimateFees relay (bundler args) (boot d) =
  (match rpcResult "eth_gasPrice" (relay 0%nat) with
   | inl e => inl e
   | inr v => match BigInt v with
              | inl e => inl e
              | inr base => inr (feesOfBase base)
              end
   end, mkWorld d 1 [gasEv args]).
Proof.
  unfold estimateFees, rpc. simpl.
  destruct (rpcResult "eth_gasPrice" (relay 0%nat)) as [e|v]; [reflexivity|].
  destruct (BigInt v); reflexivity.
Qed.

(** A run that reaches the submission is the retry loop started after the
    fee-price request. *)
Lemma main_submits d sel base :
  reachesSubmission relay P args d sel base ->
  main relay P args (boot d) =
  retryLoop relay 6 args (queue args) (map (setFeesObj (feesOfBase base)) (toSend sel))
            (keep sel) 0 (mkWorld d 1 [gasEv args]).
Proof.
  intros (q & v & Hload & Hsel & Hne & Hrpc & Hbig & Hdry).
  unfold main. cbn [boot disk]. rewrite Hload.
  destruct q as [|it q].
  - rewrite selectBatch_nil in Hsel. inversion Hsel; subst. contradiction.
  - rewrite nonempty_length by discriminate. rewrite Hsel.
    rewrite (nonempty_length _ Hne), estimateFees_boot, Hrpc, Hbig, Hdry.
    reflexivity.
Qed.

Lemma retryLoop_fail fuel qfile toSend keep attempt w e :
  attempt < 5 ->
  rpcResult "eth_sendUserOperationBundle" (relay (calls w)) = inl e ->
  retryLoop relay (S fuel) args qfile toSend keep attempt w =
  retryLoop relay fuel args qfile toSend keep (attempt + 1)
    (mkWorld (disk w) (S (calls w))
       (trace w ++ [sendEv args (map val toSend);
                    Sleep (Z.min 60 (2 ^ (attempt + 1)) * 1000)])).
Proof.
  intros Hlt Hfail. simpl. destruct (Z.ltb_spec attempt 5); [|lia].
  unfold sendBundle, rpc. rewrite Hfail. unfold sleep, emit, push. simpl.
  rewrite <- app_assoc. reflexivity.
Qed.

Lemma retryLoop_success fuel qfile toSend keep attempt w res :
  attempt < 5 ->
  rpcResult "eth_sendUserOperationBundle" (relay (calls w)) = inr res ->
  retryLoop relay (S fuel) args qfile toSend keep attempt w =
  Some (BundleSent res,
        mkWorld (writeFile (disk w) qfile (Items (map val keep))) (S (calls w))
          (trace w ++ [sendEv args (map val toSend); WriteFile qfile (map val keep)])).
Proof.
  intros Hlt Hok. simpl. destruct (Z.ltb_spec attempt 5); [|lia].
  unfold sendBundle, rpc. rewrite Hok. unfold saveQueue, push. simpl.
  rewrite <- app_assoc. reflexivity.
Qed.

Lemma retryLoop_exit fuel qfile toSend keep attempt w :
  5 <= attempt ->
  retryLoop relay (S fuel) args qfile toSend keep attempt w = Some (RetriesFailed, w).
Proof. intros Hge. simpl. destruct (Z.ltb_spec attempt 5); [lia | reflexivity]. Qed.

(** With fuel for the attempts that are left the loop ends; it emits only
    submissions of the same ops, sleeps and the final write, and it leaves
    the disk alone unless the bundle was sent. *)
Lemma retryLoop_total qfile toSend keep : forall fuel attempt w,
  Z.max 0 (5 - attempt) < Z.of_nat fuel ->
  exists out w' evs,
    retryLoop relay fuel args qfile toSend keep attempt w = Some (out, w') /\
    trace w' = (trace w ++ evs)%list /\
    Forall (retryEvent args qfile (map val toSend) (map val keep)) evs /\
    ((forall res, out <> BundleSent res) -> disk w' = disk w).
Proof.
  induction fuel as [|fuel IH]; intros attempt w Hfuel.
  - simpl in Hfuel. lia.
  - destruct (Z.ltb_spec attempt 5) as [Hlt|Hge].
    + destruct (rpcResult "eth_sendUserOperationBundle" (relay (calls w))) as [e|res] eqn:Hr.
      * rewrite (retryLoop_fail _ _ _ _ _ _ e Hlt Hr).
        destruct (IH (attempt + 1)
                    (mkWorld (disk w) (S (calls w))
                       (trace w ++ [sendEv args (map val toSend);
                                    Sleep (Z.min 60 (2 ^ (attempt + 1)) * 1000)])))
          as (out & w' & evs & Hrun & Htr & Hall & Hdisk); [lia|].
        exists out, w',
          (sendEv args (map val toSend) :: Sleep (Z.min 60 (2 ^ (attempt + 1)) * 1000) :: evs).
        split; [exact Hrun|]. split; [|split].
        -- rewrite Htr. cbn [trace]. rewrite <- app_assoc. reflexivity.
        -- constructor; [left; reflexivity|].
           constructor; [right; left; eexists; reflexivity | exact Hall].
        -- intros Hout. apply (Hdisk Hout).
      * rewrite (retryLoop_success _ _ _ _ _ _ res Hlt Hr).
        eexists _, _, [_; _]. split; [reflexivity|]. split; [reflexivity|]. split.
        -- constructor; [left; reflexivity|].
           constructor; [right; right; reflexivity | constructor].
        -- intros Hout. exfalso. apply (Hout res). reflexivity.
    + rewrite retryLoop_exit by exact Hge.
      exists RetriesFailed, w, []. rewrite app_nil_r. repeat split. constructor.
Qed.

Lemma retryEvent_feeQueries qfile ops saved evs :
  Forall (retryEvent args qfile ops saved) evs -> feeQueries evs = O.
Proof.
  induction 1 as [|ev evs Hev _ IH]; [reflexivity|].
  destruct Hev as [->|[[ms ->]| ->]]; simpl; exact IH.
Qed.

Lemma retryEvent_ops qfile ops saved evs url ops' ep :
  Forall (retryEvent args qfile ops saved) evs ->
  In (Fetch url "eth_sendUserOperationBundle" (BundleParams ops' ep)) evs ->
  ops' = ops.
Proof.
  intros Hall Hin. rewrite Forall_forall in Hall.
  destruct (Hall _ Hin) as [Heq|[[ms Heq]|Heq]]; try discriminate.
  unfold sendEv in Heq. congruence.
Qed.

(** [main] always ends. *)
Lemma main_total d : exists out w', main relay P args (boot d) = Some (out, w').
Proof.
  unfold main.
  destruct (loadQueue (disk (boot d)) (queue args)) as [e|q]; [eauto|].
  destruct (Z.of_nat (List.length q) =? 0); [eauto|].
  destruct (selectBatch P args q) as [e|sel]; [eauto|].
  destruct (Z.of_nat (List.length (toSend sel)) =? 0); [eauto|].
  destruct (estimateFees relay (bundler args) (boot d)) as [[e|fees] w1]; [eauto|].
  destruct (dryRun args); [eauto|].
  destruct (retryLoop_total (queue args) (map (setFeesObj fees) (toSend sel)) (keep sel)
              6 0 w1) as (out & w' & _ & Hrun & _); [simpl; lia|].
  eauto.
Qed.

End Running.

(** ** Fee backfill on one op *)

Section Backfill.

Variable fees : Fees.

Lemma setFees_maxFee_unset o :
  maxFeePerGas o = "0x0" -> maxFeePerGas (setFees fees o) = feeMaxFeePerGas fees.
Proof.
  intros H. unfold setFees. rewrite H. simpl.
  destruct (String.eqb (maxPriorityFeePerGas o) "0x0"); reflexivity.
Qed.

Lemma setFees_prio_unset o :
  maxPriorityFeePerGas o = "0x0" ->
  maxPriorityFeePerGas (setFees fees o) = feeMaxPriorityFeePerGas fees.
Proof.
  intros H. unfold setFees.
  destruct (String.eqb (maxFeePerGas o) "0x0"); simpl; rewrite H; reflexivity.
Qed.

Lemma setFees_maxFee_kept o :
  maxFeePerGas o <> "0x0" -> maxFeePerGas (setFees fees o) = maxFeePerGas o.
Proof.
  intros H. apply String.eqb_neq in H. unfold setFees. rewrite H.
  destruct (String.eqb (maxPriorityFeePerGas o) "0x0"); reflexivity.
Qed.

Lemma setFees_prio_kept o :
  maxPriorityFeePerGas o <> "0x0" ->
  maxPriorityFeePerGas (setFees fees o) = maxPriorityFeePerGas o.
Proof.
  intros H. apply String.eqb_neq in H. unfold setFees.
  destruct (String.eqb (maxFeePerGas o) "0x0"); simpl; rewrite H; reflexivity.
Qed.

Lemma setFees_untouched o :
  maxFeePerGas o <> "0x0" -> maxPriorityFeePerGas o <> "0x0" -> setFees fees o = o.
Proof.
  intros H1 H2. apply String.eqb_neq in H1, H2. unfold setFees.
  rewrite H1, H2. reflexivity.
Qed.

Lemma nonzero_not_unset s z : BigIntOfString s = inr z -> z <> 0 -> s <> "0x0".
Proof. intros Hs Hz ->. compute in Hs. congruence. Qed.

Lemma backfilled_map sel :
  backfilled fees sel = map (fun o => setFees fees (val o)) (toSend sel).
Proof. unfold backfilled. rewrite map_map. reflexivity. Qed.

End Backfill.

Section Submitting.

Variable relay : nat -> HttpReply.
Variable P : Policy.
Variable args : Args.

(** A run that reaches the submission: its first two requests, what may
    follow, and the disk. *)
Lemma submission_run d sel base :
  reachesSubmission relay P args d sel base ->
  exists out w' rest,
    main relay P args (boot d) = Some (out, w') /\
    trace w' = gasEv args :: sendEv args (backfilled (feesOfBase base) sel) :: rest /\
    Forall (retryEvent args (queue args) (backfilled (feesOfBase base) sel)
              (map val (keep sel))) rest /\
    ((forall res, out <> BundleSent res) -> disk w' = d).
Proof.
  intros Hreach. rewrite (main_submits relay P args d sel base Hreach).
  set (ts := map (setFeesObj (feesOfBase base)) (toSend sel)).
  set (w1 := mkWorld d 1 [gasEv args]).
  destruct (rpcResult "eth_sendUserOperationBundle" (relay (calls w1))) as [e|res] eqn:Hr.
  - rewrite (retryLoop_fail relay args 5 (queue args) ts (keep sel) 0 w1 e) by (lia || exact Hr).
    match goal with |- context [retryLoop relay 5 args _ ts _ ?a ?w] =>
      destruct (retryLoop_total relay args (queue args) ts (keep sel) 5 a w)
        as (out & w' & evs & Hrun & Htr & Hall & Hdisk); [simpl; lia|]
    end.
    exists out, w', (Sleep (Z.min 60 (2 ^ (0 + 1)) * 1000) :: evs).
    split; [exact Hrun|]. split; [rewrite Htr; reflexivity|]. split.
    + constructor; [right; left; eexists; reflexivity | exact Hall].
    + exact Hdisk.
  - rewrite (retryLoop_success relay args 5 (queue args) ts (keep sel) 0 w1 res)
      by (lia || exact Hr).
    eexists _, _, [_]. split; [reflexivity|]. split; [reflexivity|]. split.
    + constructor; [right; right; reflexivity | constructor].
    + intros Hout. exfalso. apply (Hout res). reflexivity.
Qed.

(** Every submission of such a run carries the backfilled ops. *)
Lemma submission_ops d sel base out w' url ops ep :
  reachesSubmission relay P args d sel base ->
  main relay P args (boot d) = Some (out, w') ->
  In (Fetch url "eth_sendUserOperationBundle" (BundleParams ops ep)) (trace w') ->
  ops = backfilled (feesOfBase base) sel.
Proof.
  intros Hreach Hmain Hin.
  destruct (submission_run d sel base Hreach) as (out' & w'' & rest & Hm & Htr & Hall & _).
  rewrite Hm in Hmain. inversion Hmain; subst out' w''. rewrite Htr in Hin.
  destruct Hin as [Hgas|[Hsend|Hin]].
  - discriminate.
  - unfold sendEv in Hsend. congruence.
  - eapply retryEvent_ops; eassumption.
Qed.

End Submitting.

(** ** Policy validation: what it reports *)

(** [validate] reports nothing but the gas and the init-code messages. *)
Lemma validate_messages P o errs m :
  validate P o = inr errs -> In m errs ->
  (exists callGas, BigIntOfString (callGasLimit o) = inr callGas /\
                   maxCallGas P < callGas /\ m = callGasMessage callGas) \/
  m = initCodeMessage.
Proof.
  unfold validate.
  destruct (BigIntOfString (callGasLimit o)) as [e|callGas]; [discriminate|].
  destruct (BigIntOfString (maxFeePerGas o)) as [e|maxFee]; [discriminate|].
  destruct (BigIntOfString (maxPriorityFeePerGas o)) as [e|maxPrio]; [discriminate|].
  destruct (bigintGtString maxFee _), (bigintGtString maxPrio _);
    intros H; inversion H; subst errs; clear H;
    destruct (Z.ltb_spec (maxCallGas P) callGas);
    destruct ((2 <? Z.of_nat (String.length (initCode o))) && String.eqb (signature o) "0x");
    unfold push; simpl; intuition eauto.
Qed.

(** C1, on the code as it is: the max fee of [opFeeTooHigh] parses to
    200000000001 wei, the comparison with the ceiling of [POLICY]
    (200 gwei) is true, and [validate] returns no violation; the same for the
    priority fee of [opPrioTooHigh] and its ceiling of 20 gwei. *)
Theorem validate_passes_fees_over_ceiling :
  BigIntOfString (maxFeePerGas opFeeTooHigh) = inr 200000000001 /\
  bigintGtString 200000000001 (gweiToWeiHex (maxFeeGwei POLICY)) = true /\
  validate POLICY opFeeTooHigh = inr [] /\
  BigIntOfString (maxPriorityFeePerGas opPrioTooHigh) = inr 20000000001 /\
  bigintGtString 20000000001 (gweiToWeiHex (maxPriorityGwei POLICY)) = true /\
  validate POLICY opPrioTooHigh = inr [].
Proof. repeat split. Qed.

(** ** Batch selection *)

(** C3.  For a queue as [loadQueue] returns it, a policy and a cap, with ops
    whose numeric fields are integer literals: the selection succeeds; the identities in
    [toSend], [keep] and [dropped] are those of the queue, each once, so the
    three lists are pairwise disjoint and cover the queue.  Every entry is
    among the first [allowed] of its target or after them; those after are
    kept; among the first, an entry whose key is blocked is kept, otherwise
    one with violations is dropped and is in neither [toSend] nor [keep], and
    one without has its op in [toSend]. *)
Theorem selection_partitions_queue (P : Policy) (args : Args) (items : list QueueEntry) :
  wellFormed items ->
  exists sel,
    selectBatch P args (allocFrom 0 items) = inr sel /\
    Permutation (map oid (toSend sel) ++ map oid (keep sel) ++ map oid (dropped sel))
                (map oid (allocFrom 0 items)) /\
    NoDup (map oid (toSend sel) ++ map oid (keep sel) ++ map oid (dropped sel)) /\
    forall it, In it (allocFrom 0 items) ->
      let K := keyOf it in
      (In it (candidates args (allocFrom 0 items) K) \/
       In it (overflow args (allocFrom 0 items) K)) /\
      (In it (overflow args (allocFrom 0 items) K) -> In it (keep sel)) /\
      (In it (candidates args (allocFrom 0 items) K) ->
         (has (blockedTargets P) K = true -> In it (keep sel)) /\
         (has (blockedTargets P) K = false ->
            forall errs, validate P (op (val it)) = inr errs ->
              (errs <> [] ->
                 In it (dropped sel) /\
                 ~ In (oid it) (map oid (toSend sel)) /\
                 ~ In (oid it) (map oid (keep sel))) /\
              (errs = [] -> In (opOf it) (toSend sel)))).
Proof.
  intros Hv. set (q := allocFrom 0 items).
  assert (Hvq : forall it, In it q -> exists errs, validate P (op (val it)) = inr errs)
    by (intros it Hin; apply validate_total, Hv; eapply In_allocFrom; exact Hin).
  eexists. split; [apply selectBatch_spec; exact Hvq|]. cbn [toSend keep dropped].
  pose proof (selection_Permutation P args q) as Hperm.
  assert (Hnd : NoDup (map oid (flat_map (sendPart P args) (groupByTarget q))
                         ++ map oid (flat_map (keepPart P args) (groupByTarget q))
                         ++ map oid (flat_map (dropPart P args) (groupByTarget q)))).
  { apply (Permutation_NoDup (Permutation_sym Hperm)).
    unfold q. rewrite oid_allocFrom. apply seq_NoDup. }
  split; [exact Hperm|]. split; [exact Hnd|].
  intros it Hin. set (K := keyOf it).
  pose proof (groupByTarget_has q it Hin) as Hg. fold K in Hg.
  assert (HinG : In it (groupOf q K)) by (apply groupOf_In; auto).
  split; [|split].
  - unfold candidates, overflow, sliceTo, sliceFrom.
    rewrite <- (firstn_skipn (Z.to_nat (allowedOf args)) (groupOf q K)) in HinG.
    apply in_app_or in HinG. exact HinG.
  - intros Hover. apply in_flat_map. exists (K, groupOf q K). split; [exact Hg|].
    unfold keepPart. apply in_or_app. right. exact Hover.
  - intros Hcand. split.
    + intros Hb. apply in_flat_map. exists (K, groupOf q K). split; [exact Hg|].
      unfold keepPart. apply in_or_app. left. apply filter_In. split; [exact Hcand|].
      unfold isKeep, verdict. cbn [fst]. rewrite Hb. reflexivity.
    + intros Hb errs Herrs. split.
      * intros Hne.
        assert (Hd : In it (flat_map (dropPart P args) (groupByTarget q))).
        { apply in_flat_map. exists (K, groupOf q K). split; [exact Hg|].
          unfold dropPart. apply filter_In. split; [exact Hcand|].
          unfold isDrop, verdict. cbn [fst]. rewrite Hb, Herrs.
          destruct errs; [congruence | reflexivity]. }
        split; [exact Hd|]. apply (in_map oid) in Hd.
        rewrite app_assoc in Hnd. split; intros Hx;
          eapply (NoDup_app_disjoint _ _ (oid it) Hnd); try exact Hd;
          apply in_or_app; [left | right]; exact Hx.
      * intros ->. apply in_flat_map. exists (K, groupOf q K). split; [exact Hg|].
        unfold sendPart. apply in_map, filter_In. split; [exact Hcand|].
        unfold isSend, verdict. cbn [fst]. rewrite Hb, Herrs. reflexivity.
Qed.

Lemma wellFormed_queueDemo : wellFormed queueDemo.
Proof.
  intros e He. simpl in He.
  repeat (destruct He as [<-|He]; [eexists _, _, _; repeat split|]). contradiction.
Qed.

(** The selection of [queueDemo] under a cap of 3 with target Y blocked. *)
Lemma selection_partitions_queue_witness :
  wellFormed queueDemo /\
  exists sel,
    selectBatch policyBlockingY argsCap3 (allocFrom 0 queueDemo) = inr sel /\
    map oid (toSend sel) = [0; 3]%nat /\
    map oid (keep sel) = [4; 2]%nat /\
    map oid (dropped sel) = [1]%nat /\
    NoDup (map oid (toSend sel) ++ map oid (keep sel) ++ map oid (dropped sel)).
Proof.
  split; [apply wellFormed_queueDemo|].
  destruct (selection_partitions_queue policyBlockingY argsCap3 queueDemo
              wellFormed_queueDemo)
    as (sel & Hsel & _ & Hnd & _).
  exists sel. split; [exact Hsel|].
  vm_compute in Hsel. inversion Hsel; subst sel.
  repeat split. exact Hnd.
Defined.

(** C4.  For a target [T], with [K] its lower-cased form and
    [C = max(0, cap)]: the ops of [toSend] that belong to entries for [K] are
    the admitted ones among the first [C] entries for [K] in queue order, in
    that order; they are at most [C]; and every later entry for [K] is in
    [keep]. *)
Theorem rate_limit_per_target (P : Policy) (args : Args) (items : list QueueEntry)
    (T : string) :
  wellFormed items ->
  let q := allocFrom 0 items in
  let K := toLowerCase T in
  let C := Z.max 0 (maxPerTargetPerMin args) in
  exists sel,
    selectBatch P args q = inr sel /\
    filter (forTarget q K) (toSend sel) =
      map opOf (filter (isSend P K) (firstn (Z.to_nat C) (groupOf q K))) /\
    Z.of_nat (List.length (filter (forTarget q K) (toSend sel))) <= C /\
    forall it, In it (skipn (Z.to_nat C) (groupOf q K)) -> In it (keep sel).
Proof.
  intros Hv q K C.
  assert (Hvq : forall it, In it q -> exists errs, validate P (op (val it)) = inr errs)
    by (intros it Hin; apply validate_total, Hv; eapply In_allocFrom; exact Hin).
  assert (Hnd : NoDup (map oid q))
    by (unfold q; rewrite oid_allocFrom; apply seq_NoDup).
  eexists. split; [apply selectBatch_spec; exact Hvq|]. cbn [toSend keep].
  rewrite (toSend_for_key P args q K Hnd). split; [reflexivity|]. split.
  - apply candidates_length.
  - intros it Hin. fold (sliceFrom C (groupOf q K)) in Hin.
    assert (Hq : In it (groupOf q K)) by (eapply In_sliceFrom; exact Hin).
    apply groupOf_In in Hq. destruct Hq as [Hq HK].
    apply in_flat_map. exists (K, groupOf q K). split.
    + rewrite <- HK. apply groupByTarget_has. exact Hq.
    + unfold keepPart. apply in_or_app. right. exact Hin.
Qed.

(** Under a cap of 3 the four entries for X give the first three to the
    validator and keep the fourth. *)
Lemma rate_limit_per_target_witness :
  wellFormed queueDemo /\
  exists sel,
    selectBatch POLICY argsCap3 (allocFrom 0 queueDemo) = inr sel /\
    map oid (filter (forTarget (allocFrom 0 queueDemo) (toLowerCase targetX)) (toSend sel))
      = [0; 3]%nat /\
    map oid (keep sel) = [4]%nat.
Proof.
  split; [apply wellFormed_queueDemo|].
  destruct (rate_limit_per_target POLICY argsCap3 queueDemo targetX
              wellFormed_queueDemo)
    as (sel & Hsel & _).
  exists sel. split; [exact Hsel|].
  vm_compute in Hsel. inversion Hsel; subst sel.
  split; reflexivity.
Defined.

(** ** Submission, retries and the queue file *)

(** C2.  When the run reaches the submission and requests 1 to 5 all fail,
    the run ends at "Failed to send after retries" after five submissions;
    the disk is the one it started from and the trace holds no write. *)
Theorem exhausted_retries_leave_store (relay : nat -> HttpReply) (P : Policy)
    (args : Args) (d : Disk) (sel : Selection) (base : Z) :
  reachesSubmission relay P args d sel base ->
  (forall n, (1 <= n <= 5)%nat -> submissionFails relay n) ->
  let send := sendEv args (backfilled (feesOfBase base) sel) in
  main relay P args (boot d) =
  Some (RetriesFailed,
        mkWorld d 6
          [gasEv args; send; Sleep 2000; send; Sleep 4000; send; Sleep 8000;
           send; Sleep 16000; send; Sleep 32000]).
Proof.
  intros Hreach Hfail send.
  destruct (Hfail 1%nat) as [e1 H1]; [lia|]. destruct (Hfail 2%nat) as [e2 H2]; [lia|].
  destruct (Hfail 3%nat) as [e3 H3]; [lia|]. destruct (Hfail 4%nat) as [e4 H4]; [lia|].
  destruct (Hfail 5%nat) as [e5 H5]; [lia|].
  rewrite (main_submits relay P args d sel base Hreach).
  rewrite (retryLoop_fail relay args _ _ _ _ _ _ e1) by (lia || exact H1).
  rewrite (retryLoop_fail relay args _ _ _ _ _ _ e2) by (lia || exact H2).
  rewrite (retryLoop_fail relay args _ _ _ _ _ _ e3) by (lia || exact H3).
  rewrite (retryLoop_fail relay args _ _ _ _ _ _ e4) by (lia || exact H4).
  rewrite (retryLoop_fail relay args _ _ _ _ _ _ e5) by (lia || exact H5).
  rewrite retryLoop_exit by lia. reflexivity.
Qed.

Lemma reaches_queueDemo_failing (k : nat) :
  reachesSubmission (relayFailing k) POLICY argsDemo (diskOf [mkEntry opPlain targetX "alice" 1])
    selPlain 100.
Proof. exists [mkObj 0 (mkEntry opPlain targetX "alice" 1)], (JStr "0x64"). repeat split. discriminate. Qed.

(** Five 503 replies in a row: the queue file still holds its entry. *)
Lemma exhausted_retries_leave_store_witness :
  exists w',
    main (relayFailing 5) POLICY argsDemo (boot (diskOf [mkEntry opPlain targetX "alice" 1]))
      = Some (RetriesFailed, w') /\
    disk w' "queue.json" = Items [mkEntry opPlain targetX "alice" 1].
Proof.
  eexists. split.
  - apply (exhausted_retries_leave_store (relayFailing 5) POLICY argsDemo
             (diskOf [mkEntry opPlain targetX "alice" 1]) selPlain 100).
    + apply reaches_queueDemo_failing.
    + intros n Hn. exists (RpcFailed "eth_sendUserOperationBundle" 503).
      destruct n as [|[|[|[|[|[|n]]]]]]; try reflexivity; lia.
  - reflexivity.
Defined.

(** C5.  When the run reaches the submission, requests 1 to 4 fail and
    request 5 succeeds with [res]: the run sleeps 2, 4, 8 and 16 seconds
    after the four failures, and writes [keep] to the queue file once, after
    the fifth submission. *)
Theorem backoff_then_persist (relay : nat -> HttpReply) (P : Policy) (args : Args)
    (d : Disk) (sel : Selection) (base : Z) (res : Value) :
  reachesSubmission relay P args d sel base ->
  (forall n, (1 <= n <= 4)%nat -> submissionFails relay n) ->
  rpcResult "eth_sendUserOperationBundle" (relay 5%nat) = inr res ->
  let send := sendEv args (backfilled (feesOfBase base) sel) in
  let saved := map val (keep sel) in
  main relay P args (boot d) =
  Some (BundleSent res,
        mkWorld (writeFile d (queue args) (Items saved)) 6
          [gasEv args; send; Sleep 2000; send; Sleep 4000; send; Sleep 8000;
           send; Sleep 16000; send; WriteFile (queue args) saved]).
Proof.
  intros Hreach Hfail Hok send saved.
  destruct (Hfail 1%nat) as [e1 H1]; [lia|]. destruct (Hfail 2%nat) as [e2 H2]; [lia|].
  destruct (Hfail 3%nat) as [e3 H3]; [lia|]. destruct (Hfail 4%nat) as [e4 H4]; [lia|].
  rewrite (main_submits relay P args d sel base Hreach).
  rewrite (retryLoop_fail relay args _ _ _ _ _ _ e1) by (lia || exact H1).
  rewrite (retryLoop_fail relay args _ _ _ _ _ _ e2) by (lia || exact H2).
  rewrite (retryLoop_fail relay args _ _ _ _ _ _ e3) by (lia || exact H3).
  rewrite (retryLoop_fail relay args _ _ _ _ _ _ e4) by (lia || exact H4).
  rewrite (retryLoop_success relay args _ _ _ _ _ _ res) by (lia || exact Hok).
  reflexivity.
Qed.

(** Four 503 replies and then a receipt. *)
Lemma backoff_then_persist_witness :
  exists w',
    main (relayFailing 4) POLICY argsDemo (boot (diskOf [mkEntry opPlain targetX "alice" 1]))
      = Some (BundleSent (JStr "0xb1"), w') /\
    disk w' "queue.json" = Items [].
Proof.
  eexists. split.
  - apply (backoff_then_persist (relayFailing 4) POLICY argsDemo
             (diskOf [mkEntry opPlain targetX "alice" 1]) selPlain 100 (JStr "0xb1")).
    + apply reaches_queueDemo_failing.
    + intros n Hn. exists (RpcFailed "eth_sendUserOperationBundle" 503).
      destruct n as [|[|[|[|[|n]]]]]; try reflexivity; lia.
    + reflexivity.
  - reflexivity.
Defined.

(** C8.  A run that finds the queue empty, or that selects nothing, ends in
    the state it started in: no request, no sleep, no write, same disk. *)
Theorem noop_run_is_silent (relay : nat -> HttpReply) (P : Policy) (args : Args)
    (d : Disk) :
  (loadQueue d (queue args) = inr [] \/
   exists q sel, loadQueue d (queue args) = inr q /\
                 selectBatch P args q = inr sel /\ toSend sel = []) ->
  exists out,
    main relay P args (boot d) = Some (out, boot d) /\
    (out = QueueEmpty \/ out = NothingSelected).
Proof.
  intros [Hempty|(q & sel & Hload & Hsel & Hnone)]; unfold main; cbn [boot disk].
  - rewrite Hempty. exists QueueEmpty. split; [reflexivity | left; reflexivity].
  - rewrite Hload. destruct (Z.of_nat (List.length q) =? 0).
    + exists QueueEmpty. split; [reflexivity | left; reflexivity].
    + rewrite Hsel, Hnone. exists NothingSelected.
      split; [reflexivity | right; reflexivity].
Qed.

(** A queue whose only entry is dropped: nothing is selected. *)
Lemma noop_run_is_silent_witness :
  exists out,
    main (relayAccepting (JStr "0x64")) POLICY argsDemo
         (boot (diskOf [mkEntry opUnsigned targetX "bob" 1]))
      = Some (out, boot (diskOf [mkEntry opUnsigned targetX "bob" 1])) /\
    (out = QueueEmpty \/ out = NothingSelected).
Proof.
  apply (noop_run_is_silent (relayAccepting (JStr "0x64")) POLICY argsDemo
           (diskOf [mkEntry opUnsigned targetX "bob" 1])).
  right. exists [mkObj 0 (mkEntry opUnsigned targetX "bob" 1)],
                (mkSel [] [] [mkObj 0 (mkEntry opUnsigned targetX "bob" 1)]).
  repeat split.
Defined.

(** ** Fee estimation and backfill in a run *)

(** C6.  In a run that reaches the submission with base fee [base], every
    submission carries the selected ops after the backfill.  An op whose
    [maxFeePerGas] was "0x0" is sent with the hexadecimal text of [2 * base],
    one whose [maxPriorityFeePerGas] was "0x0" with that of [base / 10]
    (truncated); for [base >= 0] these texts read back as [2 * base] and
    [base / 10].  A fee field with a non-zero value is sent as it was, and an
    op with both fee values non-zero is sent unchanged. *)
Theorem backfill_of_unset_fees (relay : nat -> HttpReply) (P : Policy) (args : Args)
    (d : Disk) (sel : Selection) (base : Z) :
  reachesSubmission relay P args d sel base ->
  let fees := feesOfBase base in
  exists out w' rest,
    main relay P args (boot d) = Some (out, w') /\
    trace w' = gasEv args
                 :: sendEv args (map (fun o => setFees fees (val o)) (toSend sel)) :: rest /\
    (forall url ops ep,
       In (Fetch url "eth_sendUserOperationBundle" (BundleParams ops ep)) (trace w') ->
       ops = map (fun o => setFees fees (val o)) (toSend sel)) /\
    forall o, In o (toSend sel) ->
      let sent := setFees fees (val o) in
      (maxFeePerGas (val o) = "0x0" ->
         maxFeePerGas sent = "0x" ++ toStringRadix 16 (base * 2) /\
         (0 <= base -> BigIntOfString (maxFeePerGas sent) = inr (2 * base))) /\
      (maxPriorityFeePerGas (val o) = "0x0" ->
         maxPriorityFeePerGas sent = "0x" ++ toStringRadix 16 (Z.quot base 10) /\
         (0 <= base -> BigIntOfString (maxPriorityFeePerGas sent) = inr (base / 10))) /\
      (forall z, BigIntOfString (maxFeePerGas (val o)) = inr z -> z <> 0 ->
         maxFeePerGas sent = maxFeePerGas (val o)) /\
      (forall z, BigIntOfString (maxPriorityFeePerGas (val o)) = inr z -> z <> 0 ->
         maxPriorityFeePerGas sent = maxPriorityFeePerGas (val o)) /\
      (forall z1 z2,
         BigIntOfString (maxFeePerGas (val o)) = inr z1 -> z1 <> 0 ->
         BigIntOfString (maxPriorityFeePerGas (val o)) = inr z2 -> z2 <> 0 ->
         sent = val o).
Proof.
  intros Hreach fees.
  destruct (submission_run relay P args d sel base Hreach)
    as (out & w' & rest & Hmain & Htr & Hall & _).
  exists out, w', rest. split; [exact Hmain|].
  rewrite <- (backfilled_map fees sel). split; [exact Htr|]. split.
  - intros url ops ep Hin.
    apply (submission_ops relay P args d sel base out w' url ops ep Hreach Hmain Hin).
  - intros o _ sent. unfold sent. split; [|split; [|split; [|split]]].
    + intros H0. rewrite (setFees_maxFee_unset fees _ H0). simpl.
      split; [reflexivity|]. intros Hb.
      change (String "0" (String "x" (toStringRadix 16 (base * 2))))
        with ("0x" ++ toStringRadix 16 (base * 2)).
      rewrite BigIntOfString_hex by lia. rewrite (Z.mul_comm base 2). reflexivity.
    + intros H0. rewrite (setFees_prio_unset fees _ H0). simpl.
      split; [reflexivity|]. intros Hb.
      change (String "0" (String "x" (toStringRadix 16 (Z.quot base 10))))
        with ("0x" ++ toStringRadix 16 (Z.quot base 10)).
      rewrite BigIntOfString_hex by (apply Z.quot_pos; lia).
      rewrite Z.quot_div_nonneg by lia. reflexivity.
    + intros z Hz Hnz. apply setFees_maxFee_kept. eapply nonzero_not_unset; eassumption.
    + intros z Hz Hnz. apply setFees_prio_kept. eapply nonzero_not_unset; eassumption.
    + intros z1 z2 H1 Hn1 H2 Hn2.
      apply setFees_untouched; eapply nonzero_not_unset; eassumption.
Qed.

Lemma reaches_accepting (o : UserOperation) (v : Value) (base : Z) :
  validate POLICY o = inr [] -> BigInt v = inr base ->
  reachesSubmission (relayAccepting v) POLICY argsDemo
    (diskOf [mkEntry o targetX "alice" 1]) (mkSel [mkObj 0 o] [] []) base.
Proof.
  intros Hval Hbase. exists [mkObj 0 (mkEntry o targetX "alice" 1)], v.
  split; [reflexivity|]. split.
  - unfold selectBatch. simpl. rewrite Hval. reflexivity.
  - repeat split; [discriminate | exact Hbase].
Qed.

(** With a base fee of 100 wei the unset fees of [opPlain] are sent as 200
    and 10 wei. *)
Lemma backfill_of_unset_fees_witness :
  exists out w' rest,
    main (relayAccepting (JStr "0x64")) POLICY argsDemo
         (boot (diskOf [mkEntry opPlain targetX "alice" 1])) = Some (out, w') /\
    trace w' = gasEv argsDemo
      :: sendEv argsDemo
           [mkOp (sender opPlain) (nonce opPlain) (initCode opPlain) (callData opPlain)
                 (callGasLimit opPlain) (verificationGasLimit opPlain)
                 (preVerificationGas opPlain) "0xc8" "0xa"
                 (paymasterAndData opPlain) (signature opPlain)]
      :: rest.
Proof.
  destruct (backfill_of_unset_fees (relayAccepting (JStr "0x64")) POLICY argsDemo
              (diskOf [mkEntry opPlain targetX "alice" 1]) selPlain 100
              (reaches_accepting opPlain (JStr "0x64") 100 eq_refl eq_refl))
    as (out & w' & rest & Hmain & Htr & _).
  exists out, w', rest. split; [exact Hmain | exact Htr].
Defined.

(** C10.  In a run that reaches the submission, a selected op whose fee field
    is any text other than "0x0" is sent with that field as it was, also
    when the text denotes zero. *)
Theorem backfill_compares_text (relay : nat -> HttpReply) (P : Policy) (args : Args)
    (d : Disk) (sel : Selection) (base : Z) :
  reachesSubmission relay P args d sel base ->
  let fees := feesOfBase base in
  exists out w',
    main relay P args (boot d) = Some (out, w') /\
    (forall url ops ep,
       In (Fetch url "eth_sendUserOperationBundle" (BundleParams ops ep)) (trace w') ->
       ops = map (fun o => setFees fees (val o)) (toSend sel)) /\
    forall o, In o (toSend sel) ->
      (maxFeePerGas (val o) <> "0x0" ->
         maxFeePerGas (setFees fees (val o)) = maxFeePerGas (val o)) /\
      (maxPriorityFeePerGas (val o) <> "0x0" ->
         maxPriorityFeePerGas (setFees fees (val o)) = maxPriorityFeePerGas (val o)).
Proof.
  intros Hreach fees.
  destruct (submission_run relay P args d sel base Hreach)
    as (out & w' & rest & Hmain & _).
  exists out, w'. split; [exact Hmain|]. split.
  - intros url ops ep Hin. rewrite <- (backfilled_map fees sel).
    apply (submission_ops relay P args d sel base out w' url ops ep Hreach Hmain Hin).
  - intros o _. split; [apply setFees_maxFee_kept | apply setFees_prio_kept].
Qed.

(** [opZeroPadded] has the max fee "0x00", which is zero; it is sent with
    "0x00", and with its priority fee "0x0" replaced. *)
Lemma backfill_compares_text_witness :
  BigIntOfString (maxFeePerGas opZeroPadded) = inr 0 /\
  exists out w',
    main (relayAccepting (JStr "0x64")) POLICY argsDemo
         (boot (diskOf [mkEntry opZeroPadded targetX "alice" 1])) = Some (out, w') /\
    forall url ops ep,
      In (Fetch url "eth_sendUserOperationBundle" (BundleParams ops ep)) (trace w') ->
      map maxFeePerGas ops = ["0x00"] /\ map maxPriorityFeePerGas ops = ["0xa"].
Proof.
  split; [reflexivity|].
  destruct (backfill_compares_text (relayAccepting (JStr "0x64")) POLICY argsDemo
              (diskOf [mkEntry opZeroPadded targetX "alice" 1]) selZeroPadded 100
              (reaches_accepting opZeroPadded (JStr "0x64") 100 eq_refl eq_refl))
    as (out & w' & Hmain & Hops & _).
  exists out, w'. split; [exact Hmain|].
  intros url ops ep Hin. rewrite (Hops url ops ep Hin). split; reflexivity.
Defined.

(** C7 as stated fails: the only selected op, [opPriced], has both fees set
    to 1 gwei, and the run makes the fee-price request all the same. *)
Lemma fee_query_with_all_fees_set :
  selectBatch POLICY argsDemo (allocFrom 0 [mkEntry opPriced targetX "alice" 1])
    = inr selPriced /\
  BigIntOfString (maxFeePerGas opPriced) = inr 1000000000 /\
  BigIntOfString (maxPriorityFeePerGas opPriced) = inr 1000000000 /\
  main (relayAccepting (JStr "0x64")) POLICY argsDemo
       (boot (diskOf [mkEntry opPriced targetX "alice" 1]))
    = Some (BundleSent (JStr "0xb1"),
            mkWorld (writeFile (diskOf [mkEntry opPriced targetX "alice" 1])
                       "queue.json" (Items []))
              2 [gasEv argsDemo; sendEv argsDemo [opPriced]; WriteFile "queue.json" []]).
Proof. repeat split. Qed.

(** What the backfill does to the two fee fields of an op: a field that is
    "0x0" takes the estimated fee, and any other text stays. *)
Lemma setFees_fee_fields (fees : Fees) (o : UserOperation) :
  (maxFeePerGas o = "0x0" -> maxFeePerGas (setFees fees o) = feeMaxFeePerGas fees) /\
  (maxFeePerGas o <> "0x0" -> maxFeePerGas (setFees fees o) = maxFeePerGas o) /\
  (maxPriorityFeePerGas o = "0x0" ->
     maxPriorityFeePerGas (setFees fees o) = feeMaxPriorityFeePerGas fees) /\
  (maxPriorityFeePerGas o <> "0x0" ->
     maxPriorityFeePerGas (setFees fees o) = maxPriorityFeePerGas o).
Proof.
  split; [apply setFees_maxFee_unset|]. split; [apply setFees_maxFee_kept|].
  split; [apply setFees_prio_unset | apply setFees_prio_kept].
Qed.

(** C7, amended.  Every run ends, and it makes the fee-price request once
    when it selects at least one op and never otherwise, whatever the fee
    fields of the selected ops hold.  Every submission of the run carries the
    selected ops after the backfill with the fees estimated from the reply to
    that request, and the backfill replaces exactly the fee fields whose text
    is "0x0": any other fee field is sent as it was. *)
Theorem fee_query_follows_selection (relay : nat -> HttpReply) (P : Policy)
    (args : Args) (d : Disk) :
  exists out w',
    main relay P args (boot d) = Some (out, w') /\
    feeQueries (trace w') = (if selectsSomething P args d then 1 else 0)%nat /\
    forall url ops ep,
      In (Fetch url "eth_sendUserOperationBundle" (BundleParams ops ep)) (trace w') ->
      exists q sel v base,
        loadQueue d (queue args) = inr q /\
        selectBatch P args q = inr sel /\
        rpcResult "eth_gasPrice" (relay 0%nat) = inr v /\
        BigInt v = inr base /\
        ops = map (fun o => setFees (feesOfBase base) (val o)) (toSend sel) /\
        forall o,
          (maxFeePerGas o = "0x0" ->
             maxFeePerGas (setFees (feesOfBase base) o)
             = feeMaxFeePerGas (feesOfBase base)) /\
          (maxFeePerGas o <> "0x0" ->
             maxFeePerGas (setFees (feesOfBase base) o) = maxFeePerGas o) /\
          (maxPriorityFeePerGas o = "0x0" ->
             maxPriorityFeePerGas (setFees (feesOfBase base) o)
             = feeMaxPriorityFeePerGas (feesOfBase base)) /\
          (maxPriorityFeePerGas o <> "0x0" ->
             maxPriorityFeePerGas (setFees (feesOfBase base) o)
             = maxPriorityFeePerGas o).
Proof.
  assert (Hquiet : forall url ops ep,
            ~ In (Fetch url "eth_sendUserOperationBundle" (BundleParams ops ep)) [])
    by (intros url ops ep []).
  assert (Hfees : forall url ops ep,
            ~ In (Fetch url "eth_sendUserOperationBundle" (BundleParams ops ep))
                 [gasEv args])
    by (intros url ops ep [H|[]]; discriminate H).
  unfold main, selectsSomething. cbn [boot disk].
  destruct (loadQueue d (queue args)) as [e|q] eqn:Hload.
  { eexists _, _. split; [reflexivity|]. split; [reflexivity|].
    intros url ops ep Hin. destruct (Hquiet _ _ _ Hin). }
  destruct (Z.of_nat (List.length q) =? 0) eqn:Hq.
  { destruct q; [|discriminate]. eexists _, _. split; [reflexivity|].
    split; [reflexivity|]. intros url ops ep Hin. destruct (Hquiet _ _ _ Hin). }
  destruct (selectBatch P args q) as [e|sel] eqn:Hsel.
  { eexists _, _. split; [reflexivity|]. split; [reflexivity|].
    intros url ops ep Hin. destruct (Hquiet _ _ _ Hin). }
  destruct (Z.of_nat (List.length (toSend sel)) =? 0).
  { eexists _, _. split; [reflexivity|]. split; [reflexivity|].
    intros url ops ep Hin. destruct (Hquiet _ _ _ Hin). }
  fold (boot d). rewrite estimateFees_boot. cbn [negb].
  destruct (rpcResult "eth_gasPrice" (relay 0%nat)) as [e|v] eqn:Hrpc.
  { eexists _, _. split; [reflexivity|]. split; [reflexivity|].
    intros url ops ep Hin. destruct (Hfees _ _ _ Hin). }
  destruct (BigInt v) as [e|base] eqn:Hbig.
  { eexists _, _. split; [reflexivity|]. split; [reflexivity|].
    intros url ops ep Hin. destruct (Hfees _ _ _ Hin). }
  destruct (dryRun args).
  { eexists _, _. split; [reflexivity|]. split; [reflexivity|].
    intros url ops ep Hin. destruct (Hfees _ _ _ Hin). }
  destruct (retryLoop_total relay args (queue args)
              (map (setFeesObj (feesOfBase base)) (toSend sel)) (keep sel)
              6 0 (mkWorld d 1 [gasEv args]))
    as (out & w' & evs & Hrun & Htr & Hall & _); [simpl; lia|].
  exists out, w'. split; [exact Hrun|]. rewrite Htr. cbn [trace app]. split.
  - unfold gasEv. simpl.
    rewrite (retryEvent_feeQueries args _ _ _ _ Hall). reflexivity.
  - intros url ops ep [Hin|Hin]; [discriminate Hin|].
    exists q, sel, v, base. repeat (split; [reflexivity || assumption|]). split.
    + rewrite (retryEvent_ops args _ _ _ _ _ _ _ Hall Hin), map_map. reflexivity.
    + intros o. apply setFees_fee_fields.
Qed.




(** * Further properties of the program *)

(** ** [groupByTarget] *)

(** X1.  Looking up a key in the map of [groupByTarget] gives the entries of
    the queue whose lower-cased target is that key, in queue order; a key
    that no entry has is absent, so no array of the map is empty. *)
Theorem groupByTarget_lookup (q : list (Obj QueueEntry)) (K : string) :
  (forall g, mapGet (groupByTarget q) K = Some g <-> g = groupOf q K /\ g <> []) /\
  (mapGet (groupByTarget q) K = None <-> forall it, In it q -> keyOf it <> K).
Proof.
  rewrite mapGet_groupByTarget. split.
  - intros g. destruct (groupOf q K) as [|x l] eqn:E.
    + split; [discriminate | intros [-> H]; congruence].
    + split; [intros H; inversion H; split; [reflexivity | discriminate]
             | intros [-> _]; reflexivity].
  - destruct (groupOf q K) as [|x l] eqn:E.
    + split; [|reflexivity]. intros _ it Hin HK.
      assert (H : In it (groupOf q K)) by (apply groupOf_In; auto).
      rewrite E in H. contradiction.
    + split; [discriminate|]. intros H. exfalso.
      assert (Hx : In x (groupOf q K)) by (rewrite E; left; reflexivity).
      apply groupOf_In in Hx. destruct Hx as [Hq HK]. apply (H x Hq HK).
Qed.

Lemma has_spec (s : list string) (x : string) : has s x = true <-> In x s.
Proof.
  unfold has. rewrite existsb_exists. split.
  - intros (y & Hin & Heq). apply String.eqb_eq in Heq. subst. exact Hin.
  - intros Hin. exists x. split; [exact Hin | apply String.eqb_refl].
Qed.

Lemma mapSet_fst {V : Type} (m : JsMap V) k v :
  map fst (mapSet m k v) = if has (map fst m) k then map fst m else push (map fst m) k.
Proof.
  induction m as [|[k0 v0] m IH]; simpl; [reflexivity|].
  rewrite (String.eqb_sym k k0).
  destruct (String.eqb k0 k); simpl; [reflexivity|].
  rewrite IH. fold (has (map fst m) k).
  destruct (has (map fst m) k); reflexivity.
Qed.

(** X2.  The keys of the map of [groupByTarget] are the lower-cased targets
    of the queue in the order in which they first occur, without
    repetition. *)
Theorem groupByTarget_key_order (q : list (Obj QueueEntry)) :
  map fst (groupByTarget q) = firstSeen (map keyOf q) /\
  NoDup (map fst (groupByTarget q)).
Proof.
  split; [|apply groupByTarget_NoDup].
  induction q as [|x q IH] using rev_ind; [reflexivity|].
  rewrite groupByTarget_snoc, map_app. unfold firstSeen, groupStep.
  rewrite fold_left_app, mapSet_fst. fold (firstSeen (map keyOf q)).
  rewrite IH. reflexivity.
Qed.

(** X3.  The arrays of the map of [groupByTarget], taken together, hold the
    entries of the queue, each as often as the queue does: grouping loses
    and repeats nothing. *)
Theorem groupByTarget_keeps_entries (q : list (Obj QueueEntry)) :
  Permutation (flat_map snd (groupByTarget q)) q /\
  List.length (flat_map snd (groupByTarget q)) = List.length q.
Proof.
  pose proof (groupByTarget_Permutation q) as H.
  split; [exact H | apply Permutation_length, H].
Qed.

(** ** [validate] *)

Lemma BigIntOfString_exn s e : BigIntOfString s = inl e -> e = SyntaxError.
Proof. unfold BigIntOfString. destruct (StringToBigInt s); congruence. Qed.

Lemma validate_exn P o e : validate P o = inl e -> e = SyntaxError.
Proof.
  unfold validate.
  destruct (BigIntOfString (callGasLimit o)) eqn:E1;
    [intros H; inversion H; subst; eapply BigIntOfString_exn; eassumption|].
  destruct (BigIntOfString (maxFeePerGas o)) eqn:E2;
    [intros H; inversion H; subst; eapply BigIntOfString_exn; eassumption|].
  destruct (BigIntOfString (maxPriorityFeePerGas o)) eqn:E3;
    [intros H; inversion H; subst; eapply BigIntOfString_exn; eassumption|].
  discriminate.
Qed.

Lemma validate_inr_numeric P o errs : validate P o = inr errs -> numericFields o.
Proof.
  unfold validate, numericFields.
  destruct (BigIntOfString (callGasLimit o)) as [|g]; [discriminate|].
  destruct (BigIntOfString (maxFeePerGas o)) as [|f]; [discriminate|].
  destruct (BigIntOfString (maxPriorityFeePerGas o)) as [|p]; [discriminate|].
  intros _. exists g, f, p. repeat split.
Qed.

(** X4.  On an op whose call gas limit reads as [callGas], [validate]
    returns the empty list exactly when [callGas] is at most
    [POLICY.maxCallGas] (the bound itself passes) and the init code has at
    most two characters or the signature is not "0x"; and it never returns
    more than two messages. *)
Theorem validate_admits_iff (P : Policy) (o : UserOperation) (callGas : Z)
    (errs : list string) :
  BigIntOfString (callGasLimit o) = inr callGas ->
  validate P o = inr errs ->
  (errs = [] <->
     callGas <= maxCallGas P /\
     ((String.length (initCode o) <= 2)%nat \/ signature o <> "0x")) /\
  (List.length errs <= 2)%nat.
Proof.
  intros Hg Hv. unfold validate in Hv. rewrite Hg in Hv.
  destruct (BigIntOfString (maxFeePerGas o)) as [|f]; [discriminate|].
  destruct (BigIntOfString (maxPriorityFeePerGas o)) as [|p]; [discriminate|].
  assert (Herrs : errs =
            ((if maxCallGas P <? callGas then [callGasMessage callGas] else [])
             ++ (if (2 <? Z.of_nat (String.length (initCode o)))
                    && String.eqb (signature o) "0x"
                 then [initCodeMessage] else []))%list).
  { destruct (bigintGtString f _), (bigintGtString p _);
      destruct (maxCallGas P <? callGas);
      destruct ((2 <? Z.of_nat (String.length (initCode o)))
                && String.eqb (signature o) "0x");
      unfold push in Hv; simpl in Hv; inversion Hv; reflexivity. }
  clear Hv. subst errs.
  destruct (Z.ltb_spec (maxCallGas P) callGas) as [Hc|Hc];
    destruct (Z.ltb_spec 2 (Z.of_nat (String.length (initCode o)))) as [Hi|Hi];
    destruct (String.eqb_spec (signature o) "0x") as [Hs|Hs]; simpl;
    (split; [|lia]); split;
    try discriminate; try reflexivity;
    try (intros [? [?|?]]; try lia; contradiction);
    intros _; (split; [lia|]); ((left; lia) || (right; exact Hs)).
Qed.

(** [opPlain] passes with a call gas limit of 21000. *)
Lemma validate_admits_iff_witness :
  validate POLICY opPlain = inr [] /\
  21000 <= maxCallGas POLICY.
Proof.
  split; [reflexivity|].
  apply (validate_admits_iff POLICY opPlain 21000 [] eq_refl eq_refl).
  reflexivity.
Defined.

(** X5.  [validate] throws exactly when one of [callGasLimit],
    [maxFeePerGas] and [maxPriorityFeePerGas] is no integer literal, whatever
    the policy; what it throws is a SyntaxError. *)
Theorem validate_throws_iff (P : Policy) (o : UserOperation) :
  (validate P o = inl SyntaxError <-> ~ numericFields o) /\
  (forall e, validate P o = inl e -> e = SyntaxError).
Proof.
  split; [|intros e; apply validate_exn]. split.
  - intros Hthrow Hnum. destruct (validate_total P o Hnum) as [errs H]. congruence.
  - intros Hnot. destruct (validate P o) as [e|errs] eqn:E.
    + rewrite (validate_exn P o e E). reflexivity.
    + exfalso. apply Hnot. eapply validate_inr_numeric. exact E.
Qed.

(** ** [hex] and [gweiToWeiHex] *)

Lemma StringToBigInt_hex_negative (n : Z) : n < 0 ->
  StringToBigInt ("0x" ++ toStringRadix 16 n) = None.
Proof.
  intros Hn. unfold StringToBigInt, trim, toStringRadix.
  destruct (Z.ltb_spec n 0); [|lia].
  change ("0x" ++ String "-" (digits 16 (- n)))
    with (String "0" (String "x" (String "-" (digits 16 (- n))))).
  replace (trimStart (String "0" (String "x" (String "-" (digits 16 (- n))))))
    with (String "0" (String "x" (String "-" (digits 16 (- n))))) by reflexivity.
  rewrite trimEnd_noWhite; [reflexivity|].
  simpl. apply digitsFuel_noWhite; lia.
Qed.

(** X6.  The text that [hex] gives for a value that [BigInt] converts to [n]
    reads back as [n] when [n >= 0]; for [n < 0] the text ("0x-...") is
    rejected by [BigInt].  [hex] throws exactly when [BigInt] does. *)
Theorem hex_reads_back (v : Value) :
  match BigInt v with
  | inl e => hex v = inl e
  | inr n =>
      exists s, hex v = inr s /\
        (0 <= n -> BigIntOfString s = inr n) /\
        (n < 0 -> BigIntOfString s = inl SyntaxError)
  end.
Proof.
  unfold hex. destruct (BigInt v) as [e|n]; [reflexivity|].
  eexists. split; [reflexivity|]. split; intros Hn.
  - apply BigIntOfString_hex, Hn.
  - unfold BigIntOfString. rewrite StringToBigInt_hex_negative by exact Hn. reflexivity.
Qed.

(** X7.  [gweiToWeiHex g] is the text of [g * 10^9]: for [g >= 0] it reads
    back as that number of wei, and for [g < 0] no [BigInt] reads it, so that
    a comparison [x > gweiToWeiHex(g)] is false for every [x]. *)
Theorem gweiToWeiHex_reads_back (g : Z) :
  hex (JNum (g * 1000000000)) = inr (gweiToWeiHex g) /\
  (0 <= g -> BigIntOfString (gweiToWeiHex g) = inr (g * 1000000000)) /\
  (g < 0 -> forall x, bigintGtString x (gweiToWeiHex g) = false).
Proof.
  split; [reflexivity|]. split; intros Hg.
  - apply BigIntOfString_hex. lia.
  - intros x. unfold bigintGtString, gweiToWeiHex.
    rewrite StringToBigInt_hex_negative by lia. reflexivity.
Qed.

(** ** Selection: ops that do not convert, and the order of [keep] *)

Section SelectingMore.

Variable P : Policy.
Variable args : Args.

Lemma pickLoop_exn K picked : forall s e,
  pickLoop P K picked s = inl e -> e = SyntaxError.
Proof.
  induction picked as [|it picked IH]; intros s e; simpl; [discriminate|].
  destruct (has (blockedTargets P) K); [apply IH|].
  destruct (validate P (op (val it))) as [e'|errs] eqn:E.
  - intros H. inversion H; subst. eapply validate_exn. exact E.
  - destruct (0 <? Z.of_nat (List.length errs)); apply IH.
Qed.

Lemma pickLoop_throws K picked : forall s,
  has (blockedTargets P) K = false ->
  (exists it, In it picked /\ ~ numericFields (op (val it))) ->
  pickLoop P K picked s = inl SyntaxError.
Proof.
  induction picked as [|it0 picked IH]; intros s Hb (it & Hin & Hbad); simpl;
    [contradiction|].
  rewrite Hb. destruct (validate P (op (val it0))) as [e|errs] eqn:E.
  - rewrite (validate_exn _ _ _ E). reflexivity.
  - assert (Htail : exists it', In it' picked /\ ~ numericFields (op (val it'))).
    { destruct Hin as [->|Hin]; [|eauto].
      exfalso. apply Hbad. eapply validate_inr_numeric. exact E. }
    destruct (0 <? Z.of_nat (List.length errs)); apply IH; assumption.
Qed.

Lemma groupLoop_exn groups : forall s e,
  groupLoop P args groups s = inl e -> e = SyntaxError.
Proof.
  induction groups as [|[K items] groups IH]; intros s e; simpl; [discriminate|].
  destruct (pickLoop P K _ s) as [e'|s'] eqn:E.
  - intros H. inversion H; subst. eapply pickLoop_exn. exact E.
  - apply IH.
Qed.

Lemma groupLoop_throws groups : forall s,
  (exists K items it, In (K, items) groups /\ has (blockedTargets P) K = false /\
     In it (sliceTo (allowedOf args) items) /\ ~ numericFields (op (val it))) ->
  groupLoop P args groups s = inl SyntaxError.
Proof.
  induction groups as [|[K0 items0] groups IH]; intros s (K & items & it & Hin & Hb & Hit & Hbad);
    simpl; [contradiction|].
  rewrite allowed_eq.
  destruct (pickLoop P K0 (sliceTo (allowedOf args) items0) s) as [e|s'] eqn:E.
  - rewrite (pickLoop_exn _ _ _ _ E). reflexivity.
  - apply IH. destruct Hin as [Heq|Hin]; [|eauto 10].
    inversion Heq; subst K0 items0.
    rewrite (pickLoop_throws K _ s Hb) in E by eauto. discriminate.
Qed.

(** The loop over [picked] under the weaker condition that the candidates
    convert when the key is not blocked. *)
Lemma pickLoop_spec_unblocked K picked : forall s,
  (has (blockedTargets P) K = false ->
   forall it, In it picked -> numericFields (op (val it))) ->
  pickLoop P K picked s =
  inr (mkSel (toSend s ++ map opOf (filter (isSend P K) picked))
             (keep s ++ filter (isKeep P K) picked)
             (dropped s ++ filter (isDrop P K) picked))%list.
Proof.
  destruct (has (blockedTargets P) K) eqn:Hb.
  - intros s _. revert s.
    induction picked as [|it picked IH]; intros s; simpl.
    + rewrite !app_nil_r. destruct s; reflexivity.
    + rewrite Hb, IH. unfold isSend, isKeep, isDrop, verdict. rewrite Hb.
      simpl. unfold push. rewrite <- app_assoc. reflexivity.
  - intros s Hv. apply pickLoop_spec. intros it Hin.
    apply validate_total, Hv; [reflexivity | exact Hin].
Qed.

Lemma groupLoop_spec_unblocked groups : forall s,
  (forall K items it, In (K, items) groups -> has (blockedTargets P) K = false ->
     In it (sliceTo (allowedOf args) items) -> numericFields (op (val it))) ->
  groupLoop P args groups s =
  inr (mkSel (toSend s ++ flat_map (sendPart P args) groups)
             (keep s ++ flat_map (keepPart P args) groups)
             (dropped s ++ flat_map (dropPart P args) groups))%list.
Proof.
  induction groups as [|[K items] groups IH]; intros s Hv; simpl.
  - rewrite !app_nil_r. destruct s; reflexivity.
  - rewrite allowed_eq, pickLoop_spec_unblocked.
    + rewrite IH by (intros K' items' it Hin; apply (Hv K' items' it); right; exact Hin).
      simpl. unfold sendPart, keepPart, dropPart. simpl.
      rewrite <- !app_assoc. reflexivity.
    + intros Hb it Hin. apply (Hv K items it); [left; reflexivity | exact Hb | exact Hin].
Qed.

Lemma isKeep_blocked K it : isKeep P K it = has (blockedTargets P) K.
Proof.
  unfold isKeep, verdict. destruct (has (blockedTargets P) K); [reflexivity|].
  destruct (validate P (op (val it))) as [|[|]]; reflexivity.
Qed.

Lemma filter_const {A : Type} (f : A -> bool) (b : bool) (l : list A) :
  (forall x, In x l -> f x = b) -> filter f l = if b then l else [].
Proof. destruct b; [apply filter_all | apply filter_none]. Qed.

(** What a filter by key leaves of the concatenation of per-group lists whose
    members all carry the key of their group. *)
Lemma filter_key_groups (part : string * list (Obj QueueEntry) -> list (Obj QueueEntry))
    (K : string) (G : JsMap (list (Obj QueueEntry))) :
  NoDup (map fst G) ->
  (forall K' g it, In (K', g) G -> In it (part (K', g)) -> keyOf it = K') ->
  filter (fun it => String.eqb (keyOf it) K) (flat_map part G) =
  match mapGet G K with
  | Some g => part (K, g)
  | None => []
  end.
Proof.
  induction G as [|[k0 g0] G IH]; simpl; intros Hnd Hkey; [reflexivity|].
  inversion Hnd as [|? ? Hnin Hnd']; subst.
  rewrite filter_app, IH by (auto; intros K' g it Hin; apply Hkey; right; exact Hin).
  rewrite (filter_const _ (String.eqb k0 K)).
  - destruct (String.eqb_spec k0 K) as [->|Hne]; [|reflexivity].
    rewrite (mapGet_None G K Hnin), app_nil_r. reflexivity.
  - intros it Hit. rewrite (Hkey k0 g0 it (or_introl eq_refl) Hit). reflexivity.
Qed.

End SelectingMore.

(** X8.  One candidate that [validate] cannot convert stops the whole run: if
    an entry among the first [allowed] of a target that is not blocked has a
    numeric field that is no integer literal, [main] rejects with a
    SyntaxError before any request, and writes nothing, whatever else the
    queue holds. *)
Theorem malformed_candidate_aborts_run (relay : nat -> HttpReply) (P : Policy)
    (args : Args) (d : Disk) (items : list QueueEntry) (it : Obj QueueEntry) :
  d (queue args) = Items items ->
  In it (candidates args (allocFrom 0 items) (keyOf it)) ->
  has (blockedTargets P) (keyOf it) = false ->
  ~ numericFields (op (val it)) ->
  selectBatch P args (allocFrom 0 items) = inl SyntaxError /\
  main relay P args (boot d) = Some (Thrown SyntaxError, boot d).
Proof.
  intros Hd Hcand Hb Hbad. set (q := allocFrom 0 items).
  assert (Hq : In it q).
  { apply In_sliceTo in Hcand. apply groupOf_In in Hcand. tauto. }
  assert (Hsel : selectBatch P args q = inl SyntaxError).
  { unfold selectBatch. apply groupLoop_throws.
    exists (keyOf it), (groupOf q (keyOf it)), it.
    split; [apply groupByTarget_has; exact Hq|]. auto. }
  split; [exact Hsel|].
  unfold main, loadQueue. cbn [boot disk]. rewrite Hd. fold q.
  destruct q as [|x q']; [contradiction|].
  rewrite nonempty_length by discriminate. rewrite Hsel. reflexivity.
Qed.

(** An op whose call gas limit is the text "21000 gas". *)
Lemma malformed_candidate_aborts_run_witness :
  let bad := mkOp "0x11" "0x1" "0x" "0x" "21000 gas" "0x1" "0x1" "0x0" "0x0" "0x" "0xab" in
  main (relayAccepting (JStr "0x64")) POLICY argsDemo
       (boot (diskOf [mkEntry opPlain targetX "alice" 1; mkEntry bad targetY "bob" 2]))
  = Some (Thrown SyntaxError,
          boot (diskOf [mkEntry opPlain targetX "alice" 1; mkEntry bad targetY "bob" 2])).
Proof.
  intros bad.
  apply (malformed_candidate_aborts_run (relayAccepting (JStr "0x64")) POLICY argsDemo
           (diskOf [mkEntry opPlain targetX "alice" 1; mkEntry bad targetY "bob" 2])
           [mkEntry opPlain targetX "alice" 1; mkEntry bad targetY "bob" 2]
           (mkObj 1 (mkEntry bad targetY "bob" 2))).
  - reflexivity.
  - vm_compute. left. reflexivity.
  - reflexivity.
  - intros (g & f & p & Hg & _). discriminate Hg.
Defined.

(** X9.  [validate] is run on the candidates of targets that are not blocked
    and on nothing else: when those have integer literals in their numeric
    fields the selection succeeds, whatever the fields of the other entries
    hold, and every entry beyond the cap or of a blocked target is in
    [keep]. *)
Theorem unexamined_entries_are_kept (P : Policy) (args : Args)
    (items : list QueueEntry) :
  (forall it, In it (candidates args (allocFrom 0 items) (keyOf it)) ->
     has (blockedTargets P) (keyOf it) = false -> numericFields (op (val it))) ->
  exists sel,
    selectBatch P args (allocFrom 0 items) = inr sel /\
    forall it, In it (allocFrom 0 items) ->
      In it (overflow args (allocFrom 0 items) (keyOf it)) \/
      has (blockedTargets P) (keyOf it) = true ->
      In it (keep sel).
Proof.
  intros Hv. set (q := allocFrom 0 items). fold q in Hv.
  eexists. split.
  - unfold selectBatch. rewrite groupLoop_spec_unblocked; [reflexivity|].
    intros K g it Hin Hb Hit. apply groupByTarget_In in Hin. subst g.
    assert (HK : keyOf it = K).
    { apply In_sliceTo in Hit. apply groupOf_In in Hit. tauto. }
    subst K. apply Hv; assumption.
  - cbn [keep app]. intros it Hin Hcase.
    apply in_flat_map. exists (keyOf it, groupOf q (keyOf it)).
    split; [apply groupByTarget_has; exact Hin|].
    unfold keepPart. cbn [fst snd]. apply in_or_app.
    destruct Hcase as [Hover|Hb]; [right; exact Hover|].
    assert (HinG : In it (groupOf q (keyOf it))) by (apply groupOf_In; auto).
    rewrite <- (firstn_skipn (Z.to_nat (allowedOf args)) (groupOf q (keyOf it))) in HinG.
    apply in_app_or in HinG. destruct HinG as [Hc|Ho]; [left | right; exact Ho].
    apply filter_In. split; [exact Hc|]. rewrite isKeep_blocked. exact Hb.
Qed.

(** Under a cap of 1 the second entry for X is not examined: its call gas
    limit is no number, and it is kept. *)
Lemma unexamined_entries_are_kept_witness :
  let bad := mkOp "0x11" "0x1" "0x" "0x" "21000 gas" "0x1" "0x1" "0x0" "0x0" "0x" "0xab" in
  let args1 := mkArgs "http://127.0.0.1:3000" "0x05" "queue.json" 1 false in
  exists sel,
    selectBatch POLICY args1
      (allocFrom 0 [mkEntry opPlain targetX "alice" 1; mkEntry bad targetX "bob" 2]) = inr sel /\
    map oid (keep sel) = [1%nat].
Proof.
  intros bad args1.
  destruct (unexamined_entries_are_kept POLICY args1
              [mkEntry opPlain targetX "alice" 1; mkEntry bad targetX "bob" 2])
    as (sel & Hsel & _).
  - intros it Hin _.
    assert (Hq : In it (allocFrom 0 [mkEntry opPlain targetX "alice" 1;
                                     mkEntry bad targetX "bob" 2])).
    { apply In_sliceTo in Hin. apply groupOf_In in Hin. tauto. }
    simpl in Hq. destruct Hq as [<-|[<-|[]]].
    + eexists _, _, _. repeat split.
    + vm_compute in Hin. destruct Hin as [Heq|[]]. discriminate Heq.
  - exists sel. split; [exact Hsel|].
    vm_compute in Hsel. inversion Hsel. reflexivity.
Defined.

(** X10.  After a selection, the entries of [keep] for one key are, in queue
    order, the candidates of that key when it is blocked, followed by the
    entries beyond its cap: the file written after a success lists the
    retained entries of each target in their order of arrival. *)
Theorem keep_order_per_target (P : Policy) (args : Args) (items : list QueueEntry)
    (K : string) :
  wellFormed items ->
  exists sel,
    selectBatch P args (allocFrom 0 items) = inr sel /\
    filter (fun it => String.eqb (keyOf it) K) (keep sel) =
      ((if has (blockedTargets P) K then candidates args (allocFrom 0 items) K else [])
         ++ overflow args (allocFrom 0 items) K)%list.
Proof.
  intros Hv. set (q := allocFrom 0 items).
  assert (Hvq : forall it, In it q -> exists errs, validate P (op (val it)) = inr errs)
    by (intros it Hin; apply validate_total, Hv; eapply In_allocFrom; exact Hin).
  eexists. split; [apply selectBatch_spec; exact Hvq|]. cbn [keep].
  rewrite (filter_key_groups (keepPart P args) K (groupByTarget q)).
  - rewrite mapGet_groupByTarget. unfold candidates, overflow.
    destruct (groupOf q K) as [|x g] eqn:E.
    + unfold sliceTo, sliceFrom. rewrite firstn_nil, skipn_nil.
      destruct (has (blockedTargets P) K); reflexivity.
    + unfold keepPart. cbn [fst snd]. f_equal.
      apply filter_const. intros it _. apply isKeep_blocked.
  - apply groupByTarget_NoDup.
  - intros K' g it Hin Hit. apply groupByTarget_In in Hin. subst g.
    unfold keepPart in Hit. cbn [fst snd] in Hit. apply in_app_or in Hit.
    destruct Hit as [Hit|Hit].
    + apply filter_In in Hit. destruct Hit as [Hit _].
      apply In_sliceTo in Hit. apply groupOf_In in Hit. tauto.
    + apply In_sliceFrom in Hit. apply groupOf_In in Hit. tauto.
Qed.

(** With Y blocked and a cap of 3: the entry for Y is kept as a candidate,
    the fourth entry for X as overflow. *)
Lemma keep_order_per_target_witness :
  exists sel,
    selectBatch policyBlockingY argsCap3 (allocFrom 0 queueDemo) = inr sel /\
    map oid (filter (fun it => String.eqb (keyOf it) targetY) (keep sel)) = [2%nat].
Proof.
  destruct (keep_order_per_target policyBlockingY argsCap3 queueDemo targetY
              wellFormed_queueDemo) as (sel & Hsel & Hkeep).
  exists sel. split; [exact Hsel|]. rewrite Hkeep. reflexivity.
Defined.

(** ** The shape of every run *)

Section RunShape.

Variable relay : nat -> HttpReply.
Variable P : Policy.
Variable args : Args.

(** The retry loop makes [k] failed submissions and then either gives up
    (when the counter has reached 5) or meets a reply that [rpc] accepts. *)
Lemma retryLoop_shape qfile toSend keep : forall fuel attempt w,
  0 <= attempt <= 5 ->
  5 - attempt < Z.of_nat fuel ->
  exists k,
    (forall i, (i < k)%nat -> submissionFails relay (calls w + i)) /\
    ((attempt + Z.of_nat k = 5 /\
      retryLoop relay fuel args qfile toSend keep attempt w =
      Some (RetriesFailed,
            mkWorld (disk w) (calls w + k)
              (trace w ++ failedAttempts (sendEv args (map val toSend)) attempt k)))
     \/
     (exists res,
        attempt + Z.of_nat k < 5 /\
        rpcResult "eth_sendUserOperationBundle" (relay (calls w + k)) = inr res /\
        retryLoop relay fuel args qfile toSend keep attempt w =
        Some (BundleSent res,
              mkWorld (writeFile (disk w) qfile (Items (map val keep))) (calls w + k + 1)
                (trace w ++ failedAttempts (sendEv args (map val toSend)) attempt k
                   ++ [sendEv args (map val toSend); WriteFile qfile (map val keep)])))).
Proof.
  induction fuel as [|fuel IH]; intros attempt w Hatt Hfuel; [lia|].
  destruct (Z.ltb_spec attempt 5) as [Hlt|Hge].
  - destruct (rpcResult "eth_sendUserOperationBundle" (relay (calls w))) as [e|res] eqn:Hr.
    + rewrite (retryLoop_fail relay args _ _ _ _ _ _ e Hlt Hr).
      match goal with |- context [retryLoop relay fuel args _ _ _ ?a ?w1] =>
        destruct (IH a w1) as (k & Hfails & Hcase); [lia | lia |]
      end.
      cbn [disk calls trace] in Hfails, Hcase. exists (S k). split.
      * intros [|i] Hi.
        -- rewrite Nat.add_0_r. exists e. exact Hr.
        -- rewrite Nat.add_succ_r, <- Nat.add_succ_l. apply Hfails. lia.
      * destruct Hcase as [[Hk Hrun]|(res & Hk & Hok & Hrun)]; [left | right; exists res];
          rewrite Hrun; repeat split; try lia.
        -- rewrite (Nat.add_succ_r (calls w) k), <- app_assoc. reflexivity.
        -- rewrite (Nat.add_succ_r (calls w) k). exact Hok.
        -- rewrite (Nat.add_succ_r (calls w) k), <- app_assoc. reflexivity.
    + exists O. split; [intros i Hi; lia|]. right. exists res.
      rewrite Nat.add_0_r. split; [lia|]. split; [exact Hr|].
      rewrite (retryLoop_success relay args _ _ _ _ _ _ res Hlt Hr).
      rewrite Nat.add_1_r. reflexivity.
  - exists O. split; [intros i Hi; lia|]. left. split; [lia|].
    rewrite retryLoop_exit by exact Hge.
    destruct w. cbn [disk calls trace failedAttempts]. rewrite Nat.add_0_r, app_nil_r.
    reflexivity.
Qed.

(** Every run ends, in one of the four ways of [Ends]; when the bundle was
    sent, the file holds the [keep] of the selection. *)
Lemma main_cases d :
  exists out w',
    main relay P args (boot d) = Some (out, w') /\
    Ends args d out w' /\
    (forall res, out = BundleSent res ->
       exists q sel,
         loadQueue d (queue args) = inr q /\
         selectBatch P args q = inr sel /\
         disk w' = writeFile d (queue args) (Items (map val (keep sel)))).
Proof.
  unfold main. cbn [boot disk].
  destruct (loadQueue d (queue args)) as [e|q] eqn:Hload.
  { eexists _, _. split; [reflexivity|]. split; [constructor|]; discriminate. }
  destruct (Z.of_nat (List.length q) =? 0).
  { eexists _, _. split; [reflexivity|]. split; [constructor|]; discriminate. }
  destruct (selectBatch P args q) as [e|sel] eqn:Hsel.
  { eexists _, _. split; [reflexivity|]. split; [constructor|]; discriminate. }
  destruct (Z.of_nat (List.length (toSend sel)) =? 0).
  { eexists _, _. split; [reflexivity|]. split; [constructor|]; discriminate. }
  fold (boot d). rewrite estimateFees_boot.
  destruct (rpcResult "eth_gasPrice" (relay 0%nat)) as [e|v].
  { eexists _, _. split; [reflexivity|]. split; [apply EndsAfterFees|]; discriminate. }
  destruct (BigInt v) as [e|base].
  { eexists _, _. split; [reflexivity|]. split; [apply EndsAfterFees|]; discriminate. }
  destruct (dryRun args).
  { eexists _, _. split; [reflexivity|]. split; [apply EndsAfterFees|]; discriminate. }
  destruct (retryLoop_shape (queue args) (map (setFeesObj (feesOfBase base)) (toSend sel))
              (keep sel) 6 0 (mkWorld d 1 [gasEv args]))
    as (k & _ & [[Hk Hrun]|(res & Hk & _ & Hrun)]); try lia.
  - assert (k = 5%nat) by lia. subst k. eexists _, _. split; [exact Hrun|].
    split; [apply EndsExhausted | discriminate].
  - eexists _, _. split; [exact Hrun|]. cbn [disk calls trace]. split.
    + replace (1 + k + 1)%nat with (k + 2)%nat by lia.
      apply (EndsSent args d _ _ res k). lia.
    + intros res' _. exists q, sel. repeat split; assumption.
Qed.

End RunShape.

Lemma writesOf_app (t1 t2 : list Event) :
  writesOf (t1 ++ t2) = (writesOf t1 ++ writesOf t2)%list.
Proof.
  induction t1 as [|ev t1 IH]; [reflexivity|].
  destruct ev; simpl; rewrite IH; reflexivity.
Qed.

Lemma writesOf_failedAttempts args ops : forall k attempt,
  writesOf (failedAttempts (sendEv args ops) attempt k) = [].
Proof. induction k as [|k IH]; intros attempt; simpl; [reflexivity | apply IH]. Qed.

Lemma submissionCount_app (t1 t2 : list Event) :
  submissionCount (t1 ++ t2) = (submissionCount t1 + submissionCount t2)%nat.
Proof.
  induction t1 as [|ev t1 IH]; [reflexivity|].
  destruct ev; simpl; try exact IH.
  destruct (String.eqb method "eth_sendUserOperationBundle"); simpl; rewrite IH; reflexivity.
Qed.

Lemma submissionCount_failedAttempts args ops : forall k attempt,
  submissionCount (failedAttempts (sendEv args ops) attempt k) = k.
Proof.
  induction k as [|k IH]; intros attempt; [reflexivity|].
  cbn [failedAttempts]. unfold sendEv at 1. simpl. rewrite IH. reflexivity.
Qed.

Lemma feeQueries_app (t1 t2 : list Event) :
  feeQueries (t1 ++ t2) = (feeQueries t1 + feeQueries t2)%nat.
Proof.
  induction t1 as [|ev t1 IH]; [reflexivity|].
  destruct ev; simpl; try exact IH.
  destruct (String.eqb method "eth_gasPrice"); simpl; rewrite IH; reflexivity.
Qed.

Lemma feeQueries_failedAttempts args ops : forall k attempt,
  feeQueries (failedAttempts (sendEv args ops) attempt k) = O.
Proof.
  induction k as [|k IH]; intros attempt; [reflexivity|].
  cbn [failedAttempts]. unfold sendEv at 1. simpl. apply IH.
Qed.

Lemma sleepsOf_app (t1 t2 : list Event) :
  sleepsOf (t1 ++ t2) = (sleepsOf t1 ++ sleepsOf t2)%list.
Proof.
  induction t1 as [|ev t1 IH]; [reflexivity|].
  destruct ev; simpl; rewrite IH; reflexivity.
Qed.

(** The waits double from 2 seconds on; the cap of 60 seconds is not
    reached within five attempts. *)
Lemma sleepsOf_failedAttempts args ops (k : nat) : (k <= 5)%nat ->
  sleepsOf (failedAttempts (sendEv args ops) 0 k)
  = firstn k [2000; 4000; 8000; 16000; 32000].
Proof.
  intros Hk. destruct k as [|[|[|[|[|[|k]]]]]]; try reflexivity. lia.
Qed.

(** X11.  In every run the queue file is written at most once, as the last
    event, and only when the bundle was sent; otherwise the disk is the one
    the run started from.  No other path of the disk is ever changed. *)
Theorem write_only_after_success (relay : nat -> HttpReply) (P : Policy)
    (args : Args) (d : Disk) :
  exists out w',
    main relay P args (boot d) = Some (out, w') /\
    ((forall res, out <> BundleSent res) ->
       disk w' = d /\ writesOf (trace w') = []) /\
    (forall res, out = BundleSent res ->
       exists pre saved,
         trace w' = (pre ++ [WriteFile (queue args) saved])%list /\
         writesOf pre = [] /\
         disk w' = writeFile d (queue args) (Items saved)) /\
    (forall f, f <> queue args -> disk w' f = d f).
Proof.
  destruct (main_cases relay P args d) as (out & w' & Hmain & Hends & _).
  exists out, w'. split; [exact Hmain|].
  destruct Hends as [out Hns Hnf|out Hns Hnf|ops|ops saved res k Hk]; cbn [disk trace].
  - repeat split; intros; try reflexivity. exfalso. eapply Hns. eassumption.
  - repeat split; intros; try reflexivity. exfalso. eapply Hns. eassumption.
  - repeat split; intros; try discriminate; reflexivity.
  - split; [intros H; exfalso; apply (H res); reflexivity|]. split.
    + intros res' _.
      exists (gasEv args :: failedAttempts (sendEv args ops) 0 k ++ [sendEv args ops])%list,
             saved.
      split; [|split; [|reflexivity]].
      * simpl. rewrite <- app_assoc. reflexivity.
      * simpl. rewrite writesOf_app, writesOf_failedAttempts. reflexivity.
    + intros f Hf. unfold writeFile. apply String.eqb_neq in Hf. rewrite Hf. reflexivity.
Qed.

(** X12.  No run makes more than one fee-price request, more than five
    submissions or more than six requests in all; the sleeps of a run are the
    first few of 2, 4, 8, 16 and 32 seconds, so no run ever waits the 60
    seconds of the cap. *)
Theorem run_is_bounded (relay : nat -> HttpReply) (P : Policy) (args : Args)
    (d : Disk) :
  exists out w',
    main relay P args (boot d) = Some (out, w') /\
    (feeQueries (trace w') <= 1)%nat /\
    (submissionCount (trace w') <= 5)%nat /\
    calls w' = (feeQueries (trace w') + submissionCount (trace w'))%nat /\
    exists k, (k <= 5)%nat /\
      sleepsOf (trace w') = firstn k [2000; 4000; 8000; 16000; 32000].
Proof.
  destruct (main_cases relay P args d) as (out & w' & Hmain & Hends & _).
  exists out, w'. split; [exact Hmain|].
  destruct Hends as [out Hns Hnf|out Hns Hnf|ops|ops saved res k Hk]; cbn [calls trace].
  - repeat split; simpl; try lia. exists O. split; [lia | reflexivity].
  - repeat split; simpl; try lia. exists O. split; [lia | reflexivity].
  - unfold gasEv. cbn [feeQueries submissionCount sleepsOf String.eqb Ascii.eqb Bool.eqb].
    simpl String.eqb. cbv iota.
    rewrite feeQueries_failedAttempts, submissionCount_failedAttempts.
    repeat split; try lia. exists 5%nat. split; [lia|].
    apply sleepsOf_failedAttempts. lia.
  - unfold gasEv. cbn [feeQueries submissionCount sleepsOf].
    simpl String.eqb. cbv iota.
    rewrite feeQueries_app, submissionCount_app, sleepsOf_app,
      feeQueries_failedAttempts, submissionCount_failedAttempts.
    unfold sendEv at 1 2 3. simpl.
    repeat split; try lia. exists k. split; [lia|].
    rewrite app_nil_r. apply sleepsOf_failedAttempts. lia.
Qed.

(** X13.  When the run reaches the submission, the first [k] submissions fail
    ([k <= 4]) and the next one is accepted with [res], the run ends with the
    bundle sent after [k + 1] submissions, the queue file is written once with
    [keep], and the waits are the first [k] of 2, 4, 8 and 16 seconds: none
    when the first submission succeeds. *)
Theorem success_after_failures (relay : nat -> HttpReply) (P : Policy) (args : Args)
    (d : Disk) (sel : Selection) (base : Z) (res : Value) (k : nat) :
  reachesSubmission relay P args d sel base ->
  (k <= 4)%nat ->
  (forall n, (1 <= n <= k)%nat -> submissionFails relay n) ->
  rpcResult "eth_sendUserOperationBundle" (relay (S k)) = inr res ->
  let send := sendEv args (backfilled (feesOfBase base) sel) in
  let saved := map val (keep sel) in
  main relay P args (boot d) =
    Some (BundleSent res,
          mkWorld (writeFile d (queue args) (Items saved)) (k + 2)
            (gasEv args :: failedAttempts send 0 k
               ++ [send; WriteFile (queue args) saved])%list) /\
  sleepsOf (failedAttempts send 0 k) = firstn k [2000; 4000; 8000; 16000].
Proof.
  intros Hreach Hk Hfail Hok send saved. split.
  - rewrite (main_submits relay P args d sel base Hreach).
    destruct (retryLoop_shape relay args (queue args)
                (map (setFeesObj (feesOfBase base)) (toSend sel)) (keep sel)
                6 0 (mkWorld d 1 [gasEv args]))
      as (k' & Hfails' & Hcase); try lia.
    cbn [disk calls trace] in Hfails', Hcase.
    assert (Hle : (k' <= k)%nat).
    { destruct (Nat.le_gt_cases k' k) as [H|H]; [exact H|].
      destruct (Hfails' k H) as [e He]. simpl in He. congruence. }
    destruct Hcase as [[Hk' _]|(res' & Hk' & Hok' & Hrun)]; [lia|].
    assert (k' = k).
    { destruct (Nat.eq_dec k' k) as [H|H]; [exact H|].
      destruct (Hfail (S k')) as [e He]; [lia|]. simpl in Hok'. congruence. }
    subst k'. simpl in Hok'. rewrite Hok in Hok'. inversion Hok'; subst res'.
    rewrite Hrun. replace (1 + k + 1)%nat with (k + 2)%nat by lia. reflexivity.
  - destruct k as [|[|[|[|[|k]]]]]; try reflexivity. lia.
Qed.

(** The relay accepts the first submission: no sleep. *)
Lemma success_after_failures_witness :
  main (relayFailing 0) POLICY argsDemo (boot (diskOf [mkEntry opPlain targetX "alice" 1]))
  = Some (BundleSent (JStr "0xb1"),
          mkWorld (writeFile (diskOf [mkEntry opPlain targetX "alice" 1])
                     "queue.json" (Items []))
            2 [gasEv argsDemo; sendEv argsDemo [setFees (feesOfBase 100) opPlain];
               WriteFile "queue.json" []]).
Proof.
  apply (success_after_failures (relayFailing 0) POLICY argsDemo
           (diskOf [mkEntry opPlain targetX "alice" 1]) selPlain 100 (JStr "0xb1") 0).
  - apply reaches_queueDemo_failing.
  - lia.
  - intros n Hn. lia.
  - reflexivity.
Defined.

(** X14.  With [--dry-run], a run that selects at least one op still makes
    the fee-price request; when that succeeds the run ends there, reporting
    the number of selected ops: no submission, no sleep, no write. *)
Theorem dry_run_stops_after_fees (relay : nat -> HttpReply) (P : Policy)
    (args : Args) (d : Disk) (q : list (Obj QueueEntry)) (sel : Selection)
    (v : Value) (base : Z) :
  loadQueue d (queue args) = inr q ->
  selectBatch P args q = inr sel ->
  toSend sel <> [] ->
  rpcResult "eth_gasPrice" (relay 0%nat) = inr v ->
  BigInt v = inr base ->
  dryRun args = true ->
  main relay P args (boot d) =
  Some (DryRun (Z.of_nat (List.length (toSend sel))), mkWorld d 1 [gasEv args]).
Proof.
  intros Hload Hsel Hne Hrpc Hbig Hdry. unfold main. cbn [boot disk]. rewrite Hload.
  destruct q as [|it q].
  - rewrite selectBatch_nil in Hsel. inversion Hsel; subst. contradiction.
  - rewrite nonempty_length by discriminate. rewrite Hsel, (nonempty_length _ Hne).
    fold (boot d). rewrite estimateFees_boot, Hrpc, Hbig, Hdry, length_map.
    reflexivity.
Qed.

(** A dry run over one valid entry. *)
Lemma dry_run_stops_after_fees_witness :
  main (relayAccepting (JStr "0x64")) POLICY
       (mkArgs "http://127.0.0.1:3000" "0x05" "queue.json" 20 true)
       (boot (diskOf [mkEntry opPlain targetX "alice" 1]))
  = Some (DryRun 1,
          mkWorld (diskOf [mkEntry opPlain targetX "alice" 1]) 1
            [Fetch "http://127.0.0.1:3000" "eth_gasPrice" NoParams]).
Proof.
  apply (dry_run_stops_after_fees (relayAccepting (JStr "0x64")) POLICY
           (mkArgs "http://127.0.0.1:3000" "0x05" "queue.json" 20 true)
           (diskOf [mkEntry opPlain targetX "alice" 1])
           [mkObj 0 (mkEntry opPlain targetX "alice" 1)] selPlain (JStr "0x64") 100);
    try reflexivity. discriminate.
Defined.

(** X15.  What [main] does by the state of the queue file: a missing file, a
    file whose JSON is no array and an empty array all end the run at "Queue
    empty" with nothing done (a missing file is not created); a file that is
    no JSON makes the run reject with a SyntaxError, with nothing done. *)
Theorem queue_file_states (relay : nat -> HttpReply) (P : Policy) (args : Args)
    (d : Disk) :
  match d (queue args) with
  | Absent | NotArray | Items [] =>
      main relay P args (boot d) = Some (QueueEmpty, boot d)
  | NotJson =>
      main relay P args (boot d) = Some (Thrown SyntaxError, boot d)
  | Items (e :: items) =>
      loadQueue d (queue args) = inr (mkObj 0 e :: allocFrom 1 items)
  end.
Proof.
  unfold main, loadQueue. cbn [boot disk].
  destruct (d (queue args)) as [| | |[|e items]]; reflexivity.
Qed.

(** X16.  What the next run will load: after a run that sent its bundle, the
    queue file holds the entries of [keep], in the order of [keep], and
    nothing of what was sent or dropped; after any other run it holds what it
    held before. *)
Theorem next_run_loads (relay : nat -> HttpReply) (P : Policy) (args : Args)
    (d : Disk) :
  exists out w',
    main relay P args (boot d) = Some (out, w') /\
    match out with
    | BundleSent _ =>
        exists q sel,
          loadQueue d (queue args) = inr q /\
          selectBatch P args q = inr sel /\
          loadQueue (disk w') (queue args) = inr (allocFrom 0 (map val (keep sel)))
    | _ => loadQueue (disk w') (queue args) = loadQueue d (queue args)
    end.
Proof.
  destruct (main_cases relay P args d) as (out & w' & Hmain & Hends & Hsent).
  exists out, w'. split; [exact Hmain|].
  assert (Hsame : (forall res, out <> BundleSent res) -> disk w' = d).
  { intros Hns. destruct Hends; try reflexivity. exfalso. eapply Hns. reflexivity. }
  destruct out as [| | |res| |]; try (rewrite Hsame by discriminate; reflexivity).
  destruct (Hsent res eq_refl) as (q & sel & Hload & Hsel & Hdisk).
  exists q, sel. split; [exact Hload|]. split; [exact Hsel|].
  rewrite Hdisk. unfold loadQueue, writeFile. rewrite String.eqb_refl. reflexivity.
Qed.

(** ** [rpc], [estimateFees] and the backfill *)

(** X17.  [rpc] resolves exactly when the response is ok, its body parses to
    something other than [null], and [j.error] is falsy (absent, [null],
    [false], 0 or ""); it then returns [j.result] as it is, also when that is
    [undefined].  A response that is not ok throws with its status whatever
    its body.  In every case [rpc] makes one request and leaves the disk
    alone. *)
Theorem rpc_resolves_iff (relay : nat -> HttpReply) (url method : string)
    (params : Params) (w : World) :
  (forall v,
     fst (rpc relay url method params w) = inr v <->
     exists status error,
       relay (calls w) = Response true status (Some (BodyJson error v)) /\
       truthy error = false) /\
  (forall status body,
     relay (calls w) = Response false status body ->
     fst (rpc relay url method params w) = inl (RpcFailed method status)) /\
  snd (rpc relay url method params w) =
    mkWorld (disk w) (S (calls w)) (trace w ++ [Fetch url method params]).
Proof.
  unfold rpc, rpcResult. cbn [fst snd]. split; [|split; [|reflexivity]].
  - intros v. split.
    + destruct (relay (calls w)) as [|ok status [[|error result]|]]; try discriminate;
        destruct ok; try discriminate. simpl.
      destruct (truthy error) eqn:E; [discriminate|].
      intros H. inversion H; subst. eauto.
    + intros (status & error & -> & Hf). simpl. rewrite Hf. reflexivity.
  - intros status body ->. reflexivity.
Qed.

(** X18.  When [estimateFees] resolves, with the base fee [base] read from
    the reply: for [base >= 0] both fees are hexadecimal literals, the
    priority fee is at most a twentieth of the max fee; for [base < 0] the
    max fee is a text that [BigInt] rejects.  [estimateFees] makes one
    request whatever the reply. *)
Theorem estimateFees_result (relay : nat -> HttpReply) (url : string) (w : World) :
  (forall fees,
     fst (estimateFees relay url w) = inr fees ->
     exists v base,
       rpcResult "eth_gasPrice" (relay (calls w)) = inr v /\
       BigInt v = inr base /\
       fees = feesOfBase base /\
       (0 <= base ->
          BigIntOfString (feeMaxFeePerGas fees) = inr (2 * base) /\
          BigIntOfString (feeMaxPriorityFeePerGas fees) = inr (base / 10) /\
          20 * (base / 10) <= 2 * base) /\
       (base < 0 -> BigIntOfString (feeMaxFeePerGas fees) = inl SyntaxError)) /\
  snd (estimateFees relay url w) =
    mkWorld (disk w) (S (calls w)) (trace w ++ [Fetch url "eth_gasPrice" NoParams]).
Proof.
  unfold estimateFees, rpc.
  destruct (rpcResult "eth_gasPrice" (relay (calls w))) as [e|v] eqn:Hr.
  { split; [intros fees H; discriminate H | reflexivity]. }
  destruct (BigInt v) as [e|base] eqn:Hb.
  { split; [intros fees H; discriminate H | reflexivity]. }
  split; [|reflexivity].
  intros fees H. cbn [fst] in H. inversion H; subst fees.
  exists v, base. repeat split; try assumption.
  - unfold feesOfBase. cbn [feeMaxFeePerGas].
    rewrite BigIntOfString_hex by lia. rewrite (Z.mul_comm base 2). reflexivity.
  - unfold feesOfBase. cbn [feeMaxPriorityFeePerGas].
    rewrite BigIntOfString_hex by (apply Z.quot_pos; lia).
    rewrite Z.quot_div_nonneg by lia. reflexivity.
  - assert (10 * (base / 10) <= base) by (apply Z.mul_div_le; lia). lia.
  - intros Hneg. unfold feesOfBase, BigIntOfString. cbn [feeMaxFeePerGas].
    rewrite StringToBigInt_hex_negative by lia. reflexivity.
Qed.

(** A reply of "0x64": the base fee is 100 wei. *)
Lemma estimateFees_result_witness :
  exists v base,
    rpcResult "eth_gasPrice" (relayAccepting (JStr "0x64") 0%nat) = inr v /\
    BigInt v = inr base /\
    mkFees "0xc8" "0xa" = feesOfBase base /\
    BigIntOfString "0xc8" = inr (2 * base).
Proof.
  destruct (proj1 (estimateFees_result (relayAccepting (JStr "0x64"))
                     "http://127.0.0.1:3000" (boot (diskOf [])))
              (mkFees "0xc8" "0xa") eq_refl)
    as (v & base & Hr & Hb & Hf & Hpos & _).
  exists v, base. repeat split; try assumption.
  simpl in Hr. inversion Hr; subst v. simpl in Hb. inversion Hb; subst base.
  reflexivity.
Defined.

(** X19.  The backfill of one op changes nothing but the two fee fields, and
    doing it twice is the same as doing it once. *)
Theorem setFees_frame (fees : Fees) (o : UserOperation) :
  sender (setFees fees o) = sender o /\
  nonce (setFees fees o) = nonce o /\
  initCode (setFees fees o) = initCode o /\
  callData (setFees fees o) = callData o /\
  callGasLimit (setFees fees o) = callGasLimit o /\
  verificationGasLimit (setFees fees o) = verificationGasLimit o /\
  preVerificationGas (setFees fees o) = preVerificationGas o /\
  paymasterAndData (setFees fees o) = paymasterAndData o /\
  signature (setFees fees o) = signature o /\
  setFees fees (setFees fees o) = setFees fees o.
Proof.
  destruct o as [s n i c g vg pg mf mp pd sg]. unfold setFees. cbn.
  repeat match goal with
         | |- context [String.eqb ?a "0x0"] =>
             destruct (String.eqb_spec a "0x0"); cbn in *
         end;
    repeat split; try reflexivity; congruence.
Qed.

(** X20.  A base fee below 10 wei gives the priority fee "0x0", and a base
    fee of 0 the max fee "0x0" as well: after the backfill such a field still
    holds "0x0". *)
Theorem small_base_leaves_fee_unset (base : Z) (o : UserOperation) :
  0 <= base < 10 ->
  (maxPriorityFeePerGas o = "0x0" ->
     maxPriorityFeePerGas (setFees (feesOfBase base) o) = "0x0") /\
  (base = 0 -> maxFeePerGas o = "0x0" ->
     maxFeePerGas (setFees (feesOfBase base) o) = "0x0").
Proof.
  intros Hb. split.
  - intros H. rewrite (setFees_prio_unset _ _ H). unfold feesOfBase.
    cbn [feeMaxPriorityFeePerGas]. rewrite Z.quot_small by lia. reflexivity.
  - intros -> H. rewrite (setFees_maxFee_unset _ _ H). reflexivity.
Qed.

(** A base fee of 9 wei. *)
Lemma small_base_leaves_fee_unset_witness :
  maxPriorityFeePerGas (setFees (feesOfBase 9) opPlain) = "0x0" /\
  maxFeePerGas (setFees (feesOfBase 9) opPlain) = "0x12".
Proof.
  split; [|reflexivity].
  apply (small_base_leaves_fee_unset 9 opPlain); [lia | reflexivity].
Defined.

(** ** [parseArgs] *)

Lemma parseStep_dryRun k v out :
  rawDryRun (parseStep k v out) = rawDryRun out || String.eqb k "--dry-run".
Proof.
  unfold parseStep.
  destruct (String.eqb k "--bundler"), (String.eqb k "--entrypoint"),
    (String.eqb k "--queue"), (String.eqb k "--max-per-target"),
    (String.eqb k "--dry-run"); cbn;
    rewrite ?orb_true_r, ?orb_false_r; reflexivity.
Qed.

Lemma parseLoop_dryRun rest : forall out,
  rawDryRun (parseLoop rest out) = rawDryRun out || has rest "--dry-run".
Proof.
  induction rest as [|k rest IH]; intros out.
  - simpl. rewrite orb_false_r. reflexivity.
  - change (has (k :: rest) "--dry-run")
      with (String.eqb "--dry-run" k || has rest "--dry-run").
    cbn [parseLoop]. rewrite IH, parseStep_dryRun, (String.eqb_sym "--dry-run" k).
    symmetry. apply orb_assoc.
Qed.

(** X21.  [parseArgs] sets [dryRun] exactly when "--dry-run" occurs among
    the arguments after the first two, wherever it stands, also as the value
    of another flag; nothing sets it back. *)
Theorem parseArgs_dryRun (argv : list string) :
  rawDryRun (parseArgs argv) = has (skipn 2 argv) "--dry-run".
Proof. unfold parseArgs. rewrite parseLoop_dryRun. reflexivity. Qed.

Lemma parseStep_no_flag k v out : isFlag k = false -> parseStep k v out = out.
Proof.
  unfold isFlag, has. cbn [existsb]. rewrite !orb_false_iff.
  intros (H1 & H2 & H3 & H4 & H5 & _). unfold parseStep.
  rewrite H1, H2, H3, H4, H5. reflexivity.
Qed.

(** X22.  When none of the arguments after the first two is one of the five
    flags, [parseArgs] returns the defaults; the first two arguments are
    never read. *)
Theorem parseArgs_defaults (argv : list string) :
  forallb (fun k => negb (isFlag k)) (skipn 2 argv) = true ->
  parseArgs argv = defaultArgs.
Proof.
  unfold parseArgs. generalize (skipn 2 argv) as rest.
  induction rest as [|k rest IH]; simpl; intros H; [reflexivity|].
  apply andb_true_iff in H. destruct H as [Hk Hrest].
  apply negb_true_iff in Hk. rewrite (parseStep_no_flag _ _ _ Hk). apply IH, Hrest.
Qed.

(** Flags in the place of the program and of the script are not read. *)
Lemma parseArgs_defaults_witness :
  parseArgs ["--dry-run"; "--queue"; "run"; "now"] = defaultArgs.
Proof.
  apply (parseArgs_defaults ["--dry-run"; "--queue"; "run"; "now"]). reflexivity.
Defined.

Section LastFlag.

(** A field of [out] that one flag sets from the next argument. *)
Variable flag : string.
Variable field : RawArgs -> option string.
Hypothesis field_set : forall v out, field (parseStep flag v out) = v.
Hypothesis field_kept : forall k v out, k <> flag -> field (parseStep k v out) = field out.

Lemma parseLoop_field_kept rest : forall out,
  ~ In flag rest -> field (parseLoop rest out) = field out.
Proof.
  induction rest as [|k rest IH]; intros out Hnin; simpl; [reflexivity|].
  rewrite IH by (intros H; apply Hnin; right; exact H).
  apply field_kept. intros ->. apply Hnin. left. reflexivity.
Qed.

Lemma parseLoop_last_flag before after : forall out,
  ~ In flag after ->
  field (parseLoop (before ++ flag :: after) out) = hd_error after.
Proof.
  induction before as [|k before IH]; intros out Hnin; simpl.
  - rewrite parseLoop_field_kept by exact Hnin. apply field_set.
  - apply IH, Hnin.
Qed.

End LastFlag.

Lemma bundler_set v out : rawBundler (parseStep "--bundler" v out) = v.
Proof. reflexivity. Qed.

Lemma entrypoint_set v out : rawEntrypoint (parseStep "--entrypoint" v out) = v.
Proof. reflexivity. Qed.

Lemma queue_set v out : rawQueue (parseStep "--queue" v out) = v.
Proof. reflexivity. Qed.

Lemma bundler_kept k v out :
  k <> "--bundler" -> rawBundler (parseStep k v out) = rawBundler out.
Proof.
  intros H. apply String.eqb_neq in H. unfold parseStep. rewrite H.
  destruct (String.eqb k "--entrypoint"), (String.eqb k "--queue"),
    (String.eqb k "--max-per-target"), (String.eqb k "--dry-run"); reflexivity.
Qed.

Lemma entrypoint_kept k v out :
  k <> "--entrypoint" -> rawEntrypoint (parseStep k v out) = rawEntrypoint out.
Proof.
  intros H. apply String.eqb_neq in H. unfold parseStep. rewrite H.
  destruct (String.eqb k "--bundler"), (String.eqb k "--queue"),
    (String.eqb k "--max-per-target"), (String.eqb k "--dry-run"); reflexivity.
Qed.

Lemma queue_kept k v out :
  k <> "--queue" -> rawQueue (parseStep k v out) = rawQueue out.
Proof.
  intros H. apply String.eqb_neq in H. unfold parseStep. rewrite H.
  destruct (String.eqb k "--bundler"), (String.eqb k "--entrypoint"),
    (String.eqb k "--max-per-target"), (String.eqb k "--dry-run"); reflexivity.
Qed.

(** X23.  [parseArgs] gives [bundler], [entrypoint] and [queue] the argument
    that follows the last occurrence of their flag, whatever that argument
    is (another flag included), and [undefined] when the flag is the last
    argument. *)
Theorem parseArgs_last_flag (node script : string) (before after : list string) :
  (~ In "--bundler" after ->
     rawBundler (parseArgs (node :: script :: before ++ "--bundler" :: after))
     = hd_error after) /\
  (~ In "--entrypoint" after ->
     rawEntrypoint (parseArgs (node :: script :: before ++ "--entrypoint" :: after))
     = hd_error after) /\
  (~ In "--queue" after ->
     rawQueue (parseArgs (node :: script :: before ++ "--queue" :: after))
     = hd_error after).
Proof.
  unfold parseArgs. cbn [skipn]. split; [|split].
  - apply (parseLoop_last_flag "--bundler" rawBundler bundler_set bundler_kept).
  - apply (parseLoop_last_flag "--entrypoint" rawEntrypoint entrypoint_set entrypoint_kept).
  - apply (parseLoop_last_flag "--queue" rawQueue queue_set queue_kept).
Qed.

(** "--queue" as the last argument leaves [queue] undefined, and "--bundler"
    followed by "--dry-run" takes the flag as its value. *)
Lemma parseArgs_last_flag_witness :
  rawQueue (parseArgs ["node"; "batcher.ts"; "--queue"; "a.json"; "--queue"]) = None /\
  rawBundler (parseArgs ["node"; "batcher.ts"; "--bundler"; "--dry-run"])
    = Some "--dry-run".
Proof.
  split.
  - apply (proj2 (proj2 (parseArgs_last_flag "node" "batcher.ts" ["--queue"; "a.json"] []))).
    intros [].
  - apply (proj1 (parseArgs_last_flag "node" "batcher.ts" [] ["--dry-run"])).
    intros [H|[]]. discriminate H.
Defined.
